(** * cassandra_reaper_api: the authenticated session and its request layer

    A shallow embedding of [src/cassandra_reaper_api/__init__.py].  The
    class [CassandraReaper] keeps a [requests] session, a user, a password
    and a token; every method is a computation over that object and the
    remote service.  The embedding threads both through an explicit state
    and raises Python exceptions as the left summand of the result. *)

From Stdlib Require Import ZArith Ascii Floats.SpecFloat.
From stdpp Require Import gmap strings list fin_maps pretty.

Set Warnings "-register-all".
Open Scope Z_scope.

(** ** Python values *)

(** The values that travel as query parameters, form fields and JSON
    documents.  [PFloat] uses the Standard Library's IEEE 754 datatype. *)
Inductive pyval :=
| PNone
| PBool (b : bool)
| PInt (z : Z)
| PFloat (f : spec_float)
| PStr (s : string)
| PList (l : list pyval)
| PDict (d : gmap string pyval).

(** Python truth value testing, as used by [if cluster:], [if states:],
    [if intensity:]. *)
Definition truthy (v : pyval) : bool :=
  match v with
  | PNone => false
  | PBool b => b
  | PInt z => negb (z =? 0)
  | PFloat (S754_zero _) => false
  | PFloat _ => true
  | PStr s => negb (String.eqb s "")
  | PList l => negb (Nat.eqb (length l) 0)
  | PDict d => negb (Nat.eqb (size d) 0)
  end.

(** [sep.join(l)] on a list of strings. *)
Fixpoint str_join (sep : string) (l : list string) : string :=
  match l with
  | [] => ""
  | [s] => s
  | s :: rest => s +:+ sep +:+ str_join sep rest
  end.

(** ** Requests, responses, exceptions *)

Inductive Verb := GET | DELETE | POST | PUT | PATCH.

(** What the verb methods of a [requests] session receive as payload:
    nothing, [data=] (form-encoded) or [json=] (a JSON document). *)
Inductive Body :=
| NoBody
| FormBody (data : gmap string pyval)
| JsonBody (json : pyval).

(** One call of the transport, as the session prepares it: the keyword
    arguments of the call together with the session's own headers and
    [verify] setting at that moment. *)
Record Request := mkRequest {
  req_verb : Verb;
  req_url : string;
  req_params : gmap string pyval;
  req_body : Body;
  req_timeout : pyval;
  req_headers : gmap string string;
  req_verify : bool;
}.

(** The three attributes of [requests.Response] the code reads. *)
Record Response := mkResponse {
  resp_url : string;
  status_code : Z;
  text : string;
}.

(** [Response.ok] of the [requests] library: [raise_for_status()] raises
    exactly for [400 <= status_code < 600], and [ok] is true when it does
    not raise. *)
Definition ok (req : Response) : bool :=
  negb ((400 <=? status_code req) && (status_code req <? 600)).

(** Faults of the transport itself (no response was obtained). *)
Inductive Fault := ConnectionError | Timeout | RequestFault (descr : string).

Inductive exn :=
| AuthError (msg : string)
| HTTPError (msg : string)
| TransportError (f : Fault)
| JSONDecodeError
| KeyError (k : string)
| TypeError.

Definition result (A : Type) : Type := exn + A.

(** [__check_req]: reads only its argument, so it is a function from the
    response to an exception or nothing. *)
Definition __check_req (req : Response) : result unit :=
  if negb (ok req) then
    let msg := "URL: " +:+ resp_url req +:+ ", Status: " +:+ pretty (status_code req)
               +:+ ", Text: " +:+ text req in
    if bool_decide (status_code req ∈ [403; 498; 499]) then inl (AuthError msg)
    else inl (HTTPError msg)
  else inr tt.

(** The classification the validator induces on responses. *)
Inductive resp_class := Ok | AuthExpired | HttpError.

Definition classify (req : Response) : resp_class :=
  match __check_req req with
  | inr _ => Ok
  | inl (AuthError _) => AuthExpired
  | inl _ => HttpError
  end.

Definition with_status (code : Z) : Response :=
  {| resp_url := "http://reaper/"; status_code := code; text := "" |}.

(** ** The session object and the remote service *)

(** What the code takes from outside the repository: the remote service
    reached through the transport of [requests] (a response or a fault for
    each prepared request, with the service's own state, cookies included,
    moving on), [urljoin], the JSON decoder behind [Response.json()]
    ([None] when the text is not JSON), and the library's User-Agent. *)
Class HttpEnv := {
  World : Type;
  transport : World → Request → (Fault + Response) * World;
  urljoin : string → string → string;
  json_loads : string → option pyval;
  user_agent : string;
}.

(** [requests.utils.default_headers()], the headers of a new session. *)
Definition default_headers `{E : HttpEnv} : gmap string string :=
  {[ "User-Agent" := user_agent;
     "Accept-Encoding" := "gzip, deflate";
     "Accept" := "*/*";
     "Connection" := "keep-alive" ]}.

(** The attributes of a [CassandraReaper] object; [__s_verify] and
    [__s_headers] are the two attributes of [self.__s] the code touches. *)
Record Session := mkSession {
  url : string;
  __s_verify : bool;
  __s_headers : gmap string string;
  user : string;
  __password : string;
  token : string;
}.

Definition set_password (p : string) (self : Session) : Session :=
  {| url := url self; __s_verify := __s_verify self;
     __s_headers := __s_headers self; user := user self;
     __password := p; token := token self |}.

Definition set_token (t : string) (self : Session) : Session :=
  {| url := url self; __s_verify := __s_verify self;
     __s_headers := __s_headers self; user := user self;
     __password := __password self; token := t |}.

(** [self.__s.headers.update(h)]: the entries of [h] win. *)
Definition headers_update (h : gmap string string) (self : Session) : Session :=
  {| url := url self; __s_verify := __s_verify self;
     __s_headers := h ∪ __s_headers self; user := user self;
     __password := __password self; token := token self |}.

(** The log of what happened, kept beside the program state: the code never
    reads it.  A transport call is recorded with the method family that
    issued it, [login] records that it was entered and, at its last line,
    the token it stored. *)
Inductive origin := ByLogin | ByRequest.

Inductive event :=
| EvLogin
| EvSend (o : origin) (req : Request) (res : Fault + Response)
| EvLoginOk (tok : string).

Section Client.
Context `{E : HttpEnv}.

Record State := mkState {
  self : Session;
  world : World;
  trace : list event;
}.

(** Computations of the client: state passing, with an exception or a
    value.  A raised exception keeps the state reached so far. *)
Definition M (A : Type) : Type := State → result A * State.

Definition ret {A} (a : A) : M A := fun st => (inr a, st).

Definition raise {A} (e : exn) : M A := fun st => (inl e, st).

Definition bind {A B} (m : M A) (k : A → M B) : M B :=
  fun st => match m st with
            | (inr a, st') => k a st'
            | (inl e, st') => (inl e, st')
            end.

Definition lift {A} (r : result A) : M A := fun st => (r, st).

Definition get_self : M Session := fun st => (inr (self st), st).

Definition modify_self (f : Session → Session) : M unit :=
  fun st => (inr tt, {| self := f (self st); world := world st; trace := trace st |}).

Definition log (ev : event) : M unit :=
  fun st => (inr tt, {| self := self st; world := world st; trace := trace st ++ [ev] |}).

Notation "'let*' x ':=' m 'in' k" := (bind m (fun x => k))
  (at level 10, x name, m at level 100, k at level 200).
Notation "m ';;' k" := (bind m (fun _ => k))
  (at level 100, k at level 200, right associativity).

(** [self.__s.<verb>(url, params=, data=/json=, timeout=)]: the session
    prepares the request with its headers and [verify], the transport
    answers or faults. *)
Definition session_request (o : origin) (v : Verb) (u : string)
    (params : gmap string pyval) (body : Body) (timeout : pyval) : M Response :=
  fun st =>
    let req := {| req_verb := v; req_url := u; req_params := params;
                  req_body := body; req_timeout := timeout;
                  req_headers := __s_headers (self st);
                  req_verify := __s_verify (self st) |} in
    let '(res, w) := transport (world st) req in
    let st' := {| self := self st; world := w;
                  trace := trace st ++ [EvSend o req res] |} in
    match res with
    | inl f => (inl (TransportError f), st')
    | inr resp => (inr resp, st')
    end.

Definition login : M unit :=
  log EvLogin ;;
  let* me := get_self in
  let data : gmap string pyval :=
    {[ "username" := PStr (user me);
       "password" := PStr (__password me);
       "rememberMe" := PBool false ]} in
  let login_url := urljoin (url me) "login" in
  let* login_req := session_request ByLogin POST login_url ∅ (FormBody data) PNone in
  lift (__check_req login_req) ;;
  let jwt_url := urljoin (url me) "jwt" in
  let* jwt_req := session_request ByLogin GET jwt_url ∅ NoBody PNone in
  lift (__check_req jwt_req) ;;
  modify_self (set_token (text jwt_req)) ;;
  let* me' := get_self in
  modify_self (headers_update {[ "Authorization" := "Bearer " +:+ token me' ]}) ;;
  log (EvLoginOk (token me')).

(** The state in which [__init__] has assigned every attribute. *)
Definition new_session (u usr pw : string) (verify_ssl : bool) : Session :=
  {| url := u; __s_verify := verify_ssl; __s_headers := default_headers;
     user := usr; __password := pw; token := "" |}.

Definition __init__ (u usr pw : string) (verify_ssl do_login : bool) (w : World)
  : result unit * State :=
  let st := {| self := new_session u usr pw verify_ssl; world := w; trace := [] |} in
  if do_login then login st else (inr tt, st).

(** The decorator: the wrapped call with its arguments is [func]; only
    [AuthError] is caught, and [login] and the second call run outside the
    [try]. *)
Definition __auth_req {A} (func : M A) : M A :=
  fun st =>
    match func st with
    | (inl (AuthError _), st1) => (login ;; func) st1
    | r => r
    end.

Definition __get (query : string) (params : gmap string pyval) (timeout : pyval)
  : M Response :=
  __auth_req (
    let* me := get_self in
    let u := urljoin (url me) query in
    let* req := session_request ByRequest GET u params NoBody timeout in
    lift (__check_req req) ;;
    ret req).

Definition __delete (query : string) (params : gmap string pyval) (timeout : pyval)
  : M Response :=
  __auth_req (
    let* me := get_self in
    let u := urljoin (url me) query in
    let* req := session_request ByRequest DELETE u params NoBody timeout in
    lift (__check_req req) ;;
    ret req).

Definition __post (query : string) (params data : gmap string pyval) (timeout : pyval)
  : M Response :=
  __auth_req (
    let* me := get_self in
    let u := urljoin (url me) query in
    let* req := session_request ByRequest POST u params (FormBody data) timeout in
    lift (__check_req req) ;;
    ret req).

Definition __put (query : string) (params data : gmap string pyval) (timeout : pyval)
  : M Response :=
  __auth_req (
    let* me := get_self in
    let u := urljoin (url me) query in
    let* req := session_request ByRequest PUT u params (FormBody data) timeout in
    lift (__check_req req) ;;
    ret req).

Definition __patch (query : string) (params : gmap string pyval) (json : pyval)
    (timeout : pyval) : M Response :=
  __auth_req (
    let* me := get_self in
    let u := urljoin (url me) query in
    let* req := session_request ByRequest PATCH u params (JsonBody json) timeout in
    lift (__check_req req) ;;
    ret req).

Definition update_password (new_password : string) : M unit :=
  modify_self (set_password new_password).

(** [req.json()] *)
Definition json (req : Response) : result pyval :=
  match json_loads (text req) with
  | Some v => inr v
  | None => inl JSONDecodeError
  end.

(** [v[k]] for a string key: a dict answers or raises [KeyError], every
    other value raises [TypeError]. *)
Definition getitem (v : pyval) (k : string) : result pyval :=
  match v with
  | PDict d => match d !! k with
               | Some x => inr x
               | None => inl (KeyError k)
               end
  | _ => inl TypeError
  end.

(** Where a call leaves a keyword argument out, the default of the callee
    is written out: [params={}] is [∅], [timeout=10] is [PInt 10]. *)
Definition pystrs (l : list string) : pyval := PList (PStr <$> l).

Definition get_clusters (timeout : pyval) : M pyval :=
  let* req := __get "cluster" ∅ timeout in
  lift (json req).

Definition get_cluster_info (cluster : string) (limit : Z) (timeout : pyval) : M pyval :=
  let* req := __get ("cluster/" +:+ cluster) {[ "limit" := PInt limit ]} timeout in
  lift (json req).

Definition get_cluster_tables (cluster : string) (timeout : pyval) : M pyval :=
  let* req := __get ("cluster/" +:+ cluster +:+ "/tables") ∅ timeout in
  lift (json req).

Definition delete_cluster (cluster : string) (force : bool) (timeout : pyval) : M unit :=
  let params : gmap string pyval := {[ "force" := PBool force ]} in
  __delete ("cluster/" +:+ cluster) params timeout ;;
  ret tt.

Definition get_repairs_params (cluster : string) (states : list string)
  : gmap string pyval :=
  let params : gmap string pyval := ∅ in
  let params := if truthy (PStr cluster)
                then <["cluster_name" := PStr cluster]> params else params in
  let params := if truthy (pystrs states)
                then let states_str := str_join "," states in
                     <["state" := PStr states_str]> params
                else params in
  params.

Definition get_repairs (cluster : string) (states : list string) (timeout : pyval)
  : M pyval :=
  let params := get_repairs_params cluster states in
  let* req := __get "repair_run" params timeout in
  lift (json req).

Definition get_repair (id : string) (timeout : pyval) : M pyval :=
  let* req := __get ("repair_run/" +:+ id) ∅ timeout in
  lift (json req).

Definition pause_repair (id : string) (timeout : pyval) : M unit :=
  let state := "PAUSED" in
  __put ("/repair_run/" +:+ id +:+ "/state/" +:+ state) ∅ ∅ timeout ;;
  ret tt.

(** [intensity] stands for the text the f-string gives for the float
    argument, the only use the method makes of it. *)
Definition change_repair_intensity (id intensity : string) (timeout : pyval) : M unit :=
  __put ("repair_run/" +:+ id +:+ "/intensity/" +:+ intensity) ∅ ∅ timeout ;;
  ret tt.

Definition resume_repair (id : string) (timeout : pyval) : M unit :=
  let state := "RUNNING" in
  __put ("repair_run/" +:+ id +:+ "/state/" +:+ state) ∅ ∅ timeout ;;
  ret tt.

Definition abort_repair (id : string) (timeout : pyval) : M unit :=
  let state := "ABORTED" in
  __put ("repair_run/" +:+ id +:+ "/state/" +:+ state) ∅ ∅ timeout ;;
  ret tt.

Definition delete_repair (id : string) (timeout : pyval) : M unit :=
  let* repair := get_repair id (PInt 10) in
  let* owner := lift (getitem repair "owner") in
  let params : gmap string pyval := {[ "owner" := owner ]} in
  __delete ("repair_run/" +:+ id) params timeout ;;
  ret tt.

Definition get_repair_segments (id : string) (timeout : pyval) : M pyval :=
  let* req := __get ("repair_run/" +:+ id +:+ "/segments") ∅ timeout in
  lift (json req).

Definition abort_repair_segment (id segment_id : string) (timeout : pyval) : M unit :=
  __post ("repair_run/" +:+ id +:+ "/segments/abort/" +:+ segment_id) ∅ ∅ timeout ;;
  ret tt.

Definition get_schedules_params (cluster keyspace : string) : gmap string pyval :=
  let params : gmap string pyval := ∅ in
  let params := if truthy (PStr cluster)
                then <["clusterName" := PStr cluster]> params else params in
  let params := if truthy (PStr keyspace)
                then <["keyspace" := PStr keyspace]> params else params in
  params.

Definition get_schedules (cluster keyspace : string) (timeout : pyval) : M pyval :=
  let params := get_schedules_params cluster keyspace in
  let* req := __get "repair_schedule" params timeout in
  lift (json req).

Definition get_cluster_schedules (cluster : string) (timeout : pyval) : M pyval :=
  let* req := __get ("repair_schedule/cluster/" +:+ cluster) ∅ timeout in
  lift (json req).

Definition disable_schedule (id : string) (timeout : pyval) : M unit :=
  let params : gmap string pyval := {[ "state" := PStr "PAUSED" ]} in
  __put ("repair_schedule/" +:+ id) params ∅ timeout ;;
  ret tt.

(** [schedule_trigger_time] stands for the text [isoformat()] gives for the
    datetime argument, the only use the method makes of it. *)
Definition add_schedule_params (cluster keyspace owner : string)
    (schedule_days_between segment_count_per_node : Z) (intensity : spec_float)
    (repair_parallelism : string) (repair_thread_count : Z) (nodes : list string)
    (schedule_trigger_time : string) (datacenters tables blacklisted_tables : list string)
    (incremental_repair adaptive : bool) (percent_unrepaired_threshold : Z)
  : gmap string pyval :=
  let params : gmap string pyval :=
    {[ "clusterName" := PStr cluster;
       "keyspace" := PStr keyspace;
       "owner" := PStr owner;
       "scheduleDaysBetween" := PInt schedule_days_between;
       "repairParallelism" := PStr repair_parallelism;
       "incrementalRepair" := PBool incremental_repair;
       "scheduleTriggerTime" := PStr schedule_trigger_time;
       "repairThreadCount" := PInt repair_thread_count;
       "adaptive" := PBool adaptive;
       "percentUnrepairedThreshold" := PInt percent_unrepaired_threshold ]} in
  let params := if truthy (pystrs tables)
                then <["tables" := pystrs tables]> params else params in
  let params := if truthy (PInt segment_count_per_node)
                then <["segmentCountPerNode" := PInt segment_count_per_node]> params
                else params in
  let params := if truthy (PFloat intensity)
                then <["intensity" := PFloat intensity]> params else params in
  let params := if truthy (pystrs nodes)
                then <["nodes" := pystrs nodes]> params else params in
  let params := if truthy (pystrs datacenters)
                then <["datacenters" := pystrs datacenters]> params else params in
  let params := if truthy (pystrs blacklisted_tables)
                then <["blacklistedTables" := pystrs blacklisted_tables]> params
                else params in
  params.

Definition add_schedule (cluster keyspace owner : string)
    (schedule_days_between segment_count_per_node : Z) (intensity : spec_float)
    (repair_parallelism : string) (repair_thread_count : Z) (nodes : list string)
    (schedule_trigger_time : string) (datacenters tables blacklisted_tables : list string)
    (incremental_repair adaptive : bool) (percent_unrepaired_threshold : Z)
    (timeout : pyval) : M unit :=
  let params := add_schedule_params cluster keyspace owner schedule_days_between
                  segment_count_per_node intensity repair_parallelism
                  repair_thread_count nodes schedule_trigger_time datacenters tables
                  blacklisted_tables incremental_repair adaptive
                  percent_unrepaired_threshold in
  __post "repair_schedule" params ∅ timeout ;;
  ret tt.

Definition update_schedule (id owner repair_parallelism : string) (intensity : spec_float)
    (scheduled_days_between segment_count_per_node percent_unrepaired_threshold : Z)
    (adaptive : bool) (timeout : pyval) : M pyval :=
  let json_ : gmap string pyval :=
    {[ "owner" := PStr owner;
       "repair_parallelism" := PStr repair_parallelism;
       "intensity" := PFloat intensity;
       "scheduled_days_between" := PInt scheduled_days_between;
       "segment_count_per_node" := PInt segment_count_per_node;
       "percent_unrepaired_threshold" := PInt percent_unrepaired_threshold;
       "adaptive" := PBool adaptive ]} in
  let* req := __patch ("repair_schedule/" +:+ id) ∅ (PDict json_) timeout in
  lift (json req).

Definition get_schedule (id : string) (timeout : pyval) : M pyval :=
  let* req := __get ("repair_schedule/" +:+ id) ∅ timeout in
  lift (json req).

Definition delete_schedule (id : string) (timeout : pyval) : M unit :=
  let* schedule := get_schedule id (PInt 10) in
  let* owner := lift (getitem schedule "owner") in
  let params : gmap string pyval := {[ "owner" := owner ]} in
  __delete ("repair_schedule/" +:+ id) params timeout ;;
  ret tt.

Definition enable_schedule (id : string) (timeout : pyval) : M unit :=
  let params : gmap string pyval := {[ "state" := PStr "ACTIVE" ]} in
  __put ("repair_schedule/" +:+ id) params ∅ timeout ;;
  ret tt.

Definition start_schedule (id : string) (timeout : pyval) : M unit :=
  __post ("repair_schedule/start/" +:+ id) ∅ ∅ timeout ;;
  ret tt.

Definition get_cluster_snapshots (cluster : string) (timeout : pyval) : M pyval :=
  let* req := __get ("/snapshot/cluster/" +:+ cluster) ∅ timeout in
  lift (json req).

Definition get_host_snapshots (cluster host : string) (timeout : pyval) : M pyval :=
  let* req := __get ("/snapshot/" +:+ cluster +:+ "/" +:+ host) ∅ timeout in
  lift (json req).

(** The two snapshot-creating methods build their parameters by the same
    lines. *)
Definition snapshot_params (snapshot_name owner cause keyspace : string)
    (tables : list string) : gmap string pyval :=
  let params : gmap string pyval :=
    {[ "snapshot_name" := PStr snapshot_name; "owner" := PStr owner ]} in
  let params := if truthy (PStr keyspace)
                then <["keyspace" := PStr keyspace]> params else params in
  let params := if truthy (pystrs tables)
                then <["tables" := PStr (str_join "," tables)]> params else params in
  let params := if truthy (PStr cause)
                then <["cause" := PStr cause]> params else params in
  params.

Definition create_cluster_snapshot (cluster snapshot_name owner cause keyspace : string)
    (tables : list string) (timeout : pyval) : M unit :=
  let params := snapshot_params snapshot_name owner cause keyspace tables in
  __post ("/snapshot/cluster/" +:+ cluster) params ∅ timeout ;;
  ret tt.

Definition create_host_snapshot (cluster host snapshot_name owner cause keyspace : string)
    (tables : list string) (timeout : pyval) : M unit :=
  let params := snapshot_params snapshot_name owner cause keyspace tables in
  __post ("/snapshot/" +:+ cluster +:+ "/" +:+ host) params ∅ timeout ;;
  ret tt.

Definition delete_cluster_snapshot (cluster snapshot_name : string) (timeout : pyval)
  : M unit :=
  __delete ("/snapshot/cluster/" +:+ cluster +:+ "/" +:+ snapshot_name) ∅ timeout ;;
  ret tt.

Definition delete_host_snapshot (cluster host snapshot_name : string) (timeout : pyval)
  : M unit :=
  __delete ("/snapshot/" +:+ cluster +:+ "/" +:+ host +:+ "/" +:+ snapshot_name) ∅ timeout ;;
  ret tt.

End Client.

(** ** The request operations, uniformly *)

(** The five verb helpers differ in the verb and in what they hand to the
    session as body; [attempt] is the body they share, and [req_op] names a
    call of one of them with its arguments. *)
Section Operations.
Context `{E : HttpEnv}.

(** The request a session prepares for the given arguments. *)
Definition prepare (v : Verb) (query : string) (params : gmap string pyval)
    (body : Body) (timeout : pyval) (me : Session) : Request :=
  {| req_verb := v; req_url := urljoin (url me) query; req_params := params;
     req_body := body; req_timeout := timeout;
     req_headers := __s_headers me; req_verify := __s_verify me |}.

(** The state after the transport answered [res] to [req]. *)
Definition sent (o : origin) (req : Request) (res : Fault + Response) (w : World)
    (st : State) : State :=
  {| self := self st; world := w; trace := trace st ++ [EvSend o req res] |}.

Definition attempt (v : Verb) (query : string) (params : gmap string pyval)
    (body : Body) (timeout : pyval) : M Response :=
  bind get_self (fun me =>
  let u := urljoin (url me) query in
  bind (session_request ByRequest v u params body timeout) (fun req =>
  bind (lift (__check_req req)) (fun _ =>
  ret req))).

Inductive req_op :=
| OpGet (query : string) (params : gmap string pyval) (timeout : pyval)
| OpDelete (query : string) (params : gmap string pyval) (timeout : pyval)
| OpPost (query : string) (params data : gmap string pyval) (timeout : pyval)
| OpPut (query : string) (params data : gmap string pyval) (timeout : pyval)
| OpPatch (query : string) (params : gmap string pyval) (json : pyval) (timeout : pyval).

Definition run_op (op : req_op) : M Response :=
  match op with
  | OpGet q p t => __get q p t
  | OpDelete q p t => __delete q p t
  | OpPost q p d t => __post q p d t
  | OpPut q p d t => __put q p d t
  | OpPatch q p j t => __patch q p j t
  end.

Definition op_verb (op : req_op) : Verb :=
  match op with
  | OpGet _ _ _ => GET
  | OpDelete _ _ _ => DELETE
  | OpPost _ _ _ _ => POST
  | OpPut _ _ _ _ => PUT
  | OpPatch _ _ _ _ => PATCH
  end.

Definition op_query (op : req_op) : string :=
  match op with
  | OpGet q _ _ | OpDelete q _ _ | OpPost q _ _ _ | OpPut q _ _ _ | OpPatch q _ _ _ => q
  end.

Definition op_params (op : req_op) : gmap string pyval :=
  match op with
  | OpGet _ p _ | OpDelete _ p _ | OpPost _ p _ _ | OpPut _ p _ _ | OpPatch _ p _ _ => p
  end.

Definition op_timeout (op : req_op) : pyval :=
  match op with
  | OpGet _ _ t | OpDelete _ _ t | OpPost _ _ _ t | OpPut _ _ _ t | OpPatch _ _ _ t => t
  end.

(** What the helper of [op] passes as [data=] or [json=]; [__get] and
    [__delete] have no such parameter and pass neither. *)
Definition op_body (op : req_op) : Body :=
  match op with
  | OpGet _ _ _ | OpDelete _ _ _ => NoBody
  | OpPost _ _ d _ | OpPut _ _ d _ => FormBody d
  | OpPatch _ _ j _ => JsonBody j
  end.

(** The request the helper of [op] hands to the transport when the session
    is [me]. *)
Definition op_request (op : req_op) (me : Session) : Request :=
  prepare (op_verb op) (op_query op) (op_params op) (op_body op) (op_timeout op) me.

(** One try of [op]: what the decorated function does when called once. *)
Definition op_attempt (op : req_op) : M Response :=
  attempt (op_verb op) (op_query op) (op_params op) (op_body op) (op_timeout op).

(** The log entries [login] adds around its two transport calls. *)
Definition login_post (me : Session) : Request :=
  prepare POST "login" ∅
    (FormBody {[ "username" := PStr (user me);
                 "password" := PStr (__password me);
                 "rememberMe" := PBool false ]}) PNone me.

Definition login_get (me : Session) : Request :=
  prepare GET "jwt" ∅ NoBody PNone me.

Definition logged (ev : event) (st : State) : State :=
  {| self := self st; world := world st; trace := trace st ++ [ev] |}.

(** The session after a [login] that read [tok] from [/jwt]. *)
Definition authenticated (tok : string) (me : Session) : Session :=
  headers_update {[ "Authorization" := "Bearer " +:+ tok ]} (set_token tok me).

(** The lines [delete_repair] and [delete_schedule] share: read the
    resource at [query] with the default timeout, take its owner, delete. *)
Definition fetch (query : string) : M pyval :=
  bind (__get query ∅ (PInt 10)) (fun req => lift (json req)).

Definition fetch_then_delete (query : string) (timeout : pyval) : M unit :=
  bind (fetch query) (fun resource =>
  bind (lift (getitem resource "owner")) (fun owner =>
  let params : gmap string pyval := {[ "owner" := owner ]} in
  bind (__delete query params timeout) (fun _ =>
  ret tt))).

(** Every method of the class a caller can invoke, and the verb helpers. *)
Inductive call :=
| CallLogin
| CallUpdatePassword (new_password : string)
| CallOp (op : req_op)
| CallGetClusters (timeout : pyval)
| CallGetClusterInfo (cluster : string) (limit : Z) (timeout : pyval)
| CallGetClusterTables (cluster : string) (timeout : pyval)
| CallDeleteCluster (cluster : string) (force : bool) (timeout : pyval)
| CallGetRepairs (cluster : string) (states : list string) (timeout : pyval)
| CallGetRepair (id : string) (timeout : pyval)
| CallPauseRepair (id : string) (timeout : pyval)
| CallChangeRepairIntensity (id intensity : string) (timeout : pyval)
| CallResumeRepair (id : string) (timeout : pyval)
| CallAbortRepair (id : string) (timeout : pyval)
| CallDeleteRepair (id : string) (timeout : pyval)
| CallGetRepairSegments (id : string) (timeout : pyval)
| CallAbortRepairSegment (id segment_id : string) (timeout : pyval)
| CallGetSchedules (cluster keyspace : string) (timeout : pyval)
| CallGetClusterSchedules (cluster : string) (timeout : pyval)
| CallDisableSchedule (id : string) (timeout : pyval)
| CallAddSchedule (cluster keyspace owner : string)
    (schedule_days_between segment_count_per_node : Z) (intensity : spec_float)
    (repair_parallelism : string) (repair_thread_count : Z) (nodes : list string)
    (schedule_trigger_time : string) (datacenters tables blacklisted_tables : list string)
    (incremental_repair adaptive : bool) (percent_unrepaired_threshold : Z)
    (timeout : pyval)
| CallUpdateSchedule (id owner repair_parallelism : string) (intensity : spec_float)
    (scheduled_days_between segment_count_per_node percent_unrepaired_threshold : Z)
    (adaptive : bool) (timeout : pyval)
| CallDeleteSchedule (id : string) (timeout : pyval)
| CallEnableSchedule (id : string) (timeout : pyval)
| CallGetSchedule (id : string) (timeout : pyval)
| CallStartSchedule (id : string) (timeout : pyval)
| CallGetClusterSnapshots (cluster : string) (timeout : pyval)
| CallGetHostSnapshots (cluster host : string) (timeout : pyval)
| CallCreateClusterSnapshot (cluster snapshot_name owner cause keyspace : string)
    (tables : list string) (timeout : pyval)
| CallCreateHostSnapshot (cluster host snapshot_name owner cause keyspace : string)
    (tables : list string) (timeout : pyval)
| CallDeleteClusterSnapshot (cluster snapshot_name : string) (timeout : pyval)
| CallDeleteHostSnapshot (cluster host snapshot_name : string) (timeout : pyval).

(** A call whose value the caller drops. *)
Definition void {A} (m : M A) : M unit := bind m (fun _ => ret tt).

Definition run_call (c : call) : M unit :=
  match c with
  | CallLogin => login
  | CallUpdatePassword p => update_password p
  | CallOp op => void (run_op op)
  | CallGetClusters t => void (get_clusters t)
  | CallGetClusterInfo c l t => void (get_cluster_info c l t)
  | CallGetClusterTables c t => void (get_cluster_tables c t)
  | CallDeleteCluster c f t => delete_cluster c f t
  | CallGetRepairs c s t => void (get_repairs c s t)
  | CallGetRepair i t => void (get_repair i t)
  | CallPauseRepair i t => pause_repair i t
  | CallChangeRepairIntensity i x t => change_repair_intensity i x t
  | CallResumeRepair i t => resume_repair i t
  | CallAbortRepair i t => abort_repair i t
  | CallDeleteRepair i t => delete_repair i t
  | CallGetRepairSegments i t => void (get_repair_segments i t)
  | CallAbortRepairSegment i s t => abort_repair_segment i s t
  | CallGetSchedules c k t => void (get_schedules c k t)
  | CallGetClusterSchedules c t => void (get_cluster_schedules c t)
  | CallDisableSchedule i t => disable_schedule i t
  | CallAddSchedule c k o sd sc i rp rt n st d tb bt ir a pt t =>
      add_schedule c k o sd sc i rp rt n st d tb bt ir a pt t
  | CallUpdateSchedule i o rp it sd sc pt a t =>
      void (update_schedule i o rp it sd sc pt a t)
  | CallDeleteSchedule i t => delete_schedule i t
  | CallEnableSchedule i t => enable_schedule i t
  | CallGetSchedule i t => void (get_schedule i t)
  | CallStartSchedule i t => start_schedule i t
  | CallGetClusterSnapshots c t => void (get_cluster_snapshots c t)
  | CallGetHostSnapshots c h t => void (get_host_snapshots c h t)
  | CallCreateClusterSnapshot c n o ca k tb t => create_cluster_snapshot c n o ca k tb t
  | CallCreateHostSnapshot c h n o ca k tb t => create_host_snapshot c h n o ca k tb t
  | CallDeleteClusterSnapshot c n t => delete_cluster_snapshot c n t
  | CallDeleteHostSnapshot c h n t => delete_host_snapshot c h n t
  end.

(** A caller using the object for a sequence of calls, going on after an
    exception (the object stays as the failed call left it). *)
Fixpoint run_calls (cs : list call) (st : State) : State :=
  match cs with
  | [] => st
  | c :: cs' => run_calls cs' (snd (run_call c st))
  end.

End Operations.

(** ** Reading the log *)

(** How many times [login] was entered. *)
Fixpoint count_logins (tr : list event) : nat :=
  match tr with
  | [] => 0
  | EvLogin :: tr' => S (count_logins tr')
  | _ :: tr' => count_logins tr'
  end.

(** The requests a verb helper handed to the transport, in order. *)
Fixpoint request_sends (tr : list event) : list Request :=
  match tr with
  | [] => []
  | EvSend ByRequest req _ :: tr' => req :: request_sends tr'
  | _ :: tr' => request_sends tr'
  end.

(** The requests [login] handed to the transport, in order. *)
Fixpoint login_sends (tr : list event) : list Request :=
  match tr with
  | [] => []
  | EvSend ByLogin req _ :: tr' => req :: login_sends tr'
  | _ :: tr' => login_sends tr'
  end.

(** Every request handed to the transport, in order. *)
Fixpoint sends (tr : list event) : list Request :=
  match tr with
  | [] => []
  | EvSend _ req _ :: tr' => req :: sends tr'
  | _ :: tr' => sends tr'
  end.

(** The tokens stored by the logins that ran to their last line. *)
Fixpoint login_oks (tr : list event) : list string :=
  match tr with
  | [] => []
  | EvLoginOk tok :: tr' => tok :: login_oks tr'
  | _ :: tr' => login_oks tr'
  end.

(** The token of the most recent completed login, [cur] if there is none. *)
Fixpoint last_token (cur : option string) (tr : list event) : option string :=
  match tr with
  | [] => cur
  | EvLoginOk tok :: tr' => last_token (Some tok) tr'
  | _ :: tr' => last_token cur tr'
  end.

(** The Authorization header that goes with a token, if there is one. *)
Definition bearer (cur : option string) : option string :=
  match cur with
  | Some tok => Some ("Bearer " +:+ tok)
  | None => None
  end.

(** Every request of the log carries the bearer header of the login that
    completed most recently before it, and none before the first. *)
Fixpoint bearer_ok (cur : option string) (tr : list event) : bool :=
  match tr with
  | [] => true
  | EvSend _ req _ :: tr' =>
      bool_decide (req_headers req !! "Authorization" = bearer cur) && bearer_ok cur tr'
  | EvLoginOk tok :: tr' => bearer_ok (Some tok) tr'
  | EvLogin :: tr' => bearer_ok cur tr'
  end.

(** What a call added to the log: the log of [st'] beyond that of [st]. *)
Definition events_since `{E : HttpEnv} (st st' : State) : list event :=
  drop (length (trace st)) (trace st').

(** [adds st st' new]: the call that led from [st] to [st'] added exactly
    the entries [new] to the log. *)
Definition adds `{E : HttpEnv} (st st' : State) (new : list event) : Prop :=
  trace st' = trace st ++ new.

(** A relation between the state before and after that every run of [m]
    satisfies, whatever its outcome. *)
Definition respects `{E : HttpEnv} (R : State → State → Prop) {A} (m : M A) : Prop :=
  ∀ st, R st (snd (m st)).

(** The session agrees with its log: every request so far carried the
    bearer header of the login completed last before it (none before the
    first), and the session now holds that login's token and header. *)
Definition tokened `{E : HttpEnv} (st : State) : Prop :=
  bearer_ok None (trace st) = true ∧
  __s_headers (self st) !! "Authorization" = bearer (last_token None (trace st)) ∧
  token (self st) = default "" (last_token None (trace st)).

Definition keeps_tokened `{E : HttpEnv} (st st' : State) : Prop :=
  tokened st → tokened st'.

(** Token and headers are as before unless a login completed in between. *)
Definition unchanged_unless_login `{E : HttpEnv} (st st' : State) : Prop :=
  ∃ new, adds st st' new ∧
         (login_oks new = [] →
          token (self st') = token (self st) ∧
          __s_headers (self st') = __s_headers (self st)).

(** ** A scripted service, to run the client on *)

(** The service answers from a list, whatever the request, and refuses the
    connection when the list is used up; URLs join by concatenation; two
    JSON texts are known to the decoder. *)
Definition quoted (s : string) : string :=
  String "034"%char s +:+ String "034"%char EmptyString.

Definition owner_text : string :=
  "{" +:+ quoted "owner" +:+ ": " +:+ quoted "alice" +:+ "}".

Definition clusters_text : string :=
  "[" +:+ quoted "c1" +:+ ", " +:+ quoted "c2" +:+ "]".

Definition scripted_json_loads (s : string) : option pyval :=
  if String.eqb s owner_text then Some (PDict {[ "owner" := PStr "alice" ]})
  else if String.eqb s clusters_text then Some (PList [PStr "c1"; PStr "c2"])
  else None.

Definition scripted : HttpEnv :=
  {| World := list (Fault + Response);
     transport := fun w _ => match w with
                             | [] => (inl ConnectionError, [])
                             | res :: w' => (res, w')
                             end;
     urljoin := fun base query => base +:+ query;
     json_loads := scripted_json_loads;
     user_agent := "python-requests" |}.

Definition answer (code : Z) (body : string) : Fault + Response :=
  inr {| resp_url := "http://reaper/"; status_code := code; text := body |}.

(** A session that has not logged in, facing the given script. *)
Definition fresh (script : list (Fault + Response)) : State (E := scripted) :=
  snd (__init__ (E := scripted) "http://reaper/" "admin" "secret" true false script).

(** The password a session holds after the calls [cs], when it held
    [init] before: that of the last [update_password] among them. *)
Definition last_password (init : string) (cs : list call) : string :=
  fold_left (fun p c => match c with
                        | CallUpdatePassword q => q
                        | _ => p
                        end) cs init.

(** URL, user, verify setting and password are the same in both states. *)
Definition same_credentials `{E : HttpEnv} (st st' : State) : Prop :=
  url (self st') = url (self st) ∧ user (self st') = user (self st) ∧
  __s_verify (self st') = __s_verify (self st) ∧
  __password (self st') = __password (self st).



(** The runs the properties below are tried on. *)
Section Scenarios.
#[local] Existing Instance scripted.

Definition get_cluster : req_op := OpGet "cluster" ∅ (PInt 10).

Definition expired : Response :=
  {| resp_url := "http://reaper/cluster"; status_code := 403; text := "expired" |}.

Definition found : Response :=
  {| resp_url := "http://reaper/cluster"; status_code := 200; text := clusters_text |}.

(** The service rejects the first request, lets the client log in again
    (token [tok-2]) and answers the second request with [last]. *)
Definition relogin_then (last : Response) : list (Fault + Response) :=
  [answer 200 "welcome"; answer 200 "tok-2"; inr last].

Definition expiring (last : Response) : State :=
  fresh (inr expired :: relogin_then last).

Definition expiring_st1 (last : Response) : State :=
  sent ByRequest (op_request get_cluster (self (expiring last))) (inr expired)
       (relogin_then last) (expiring last).

Definition expiring_st2 (last : Response) : State :=
  snd (login (expiring_st1 last)).

Definition expiring_st3 (last : Response) : State :=
  sent ByRequest (op_request get_cluster (self (expiring_st2 last))) (inr last)
       [] (expiring_st2 last).

(** A service whose [/jwt] answers 200 with an empty body. *)
Definition empty_jwt : State := fresh [answer 200 "welcome"; answer 200 ""].

(** A service that answers the POST to [/login] with 304. *)
Definition not_modified : State := fresh [answer 304 ""; answer 200 "tok-1"].

(** A service that answers the POST to [/login] with 500. *)
Definition broken : State := fresh [answer 500 "boom"].

(** A service that lets the client log in, with token [tok-1]. *)
Definition authenticating : State := fresh [answer 200 "welcome"; answer 200 "tok-1"].

(** A service that answers once, with 200. *)
Definition obliging : State := fresh [answer 200 "done"].

(** A service that knows the resource and lets it be deleted. *)
Definition owned : State := fresh [answer 200 owner_text; answer 204 ""].

(** A service that rejects the first request and then refuses the login. *)
Definition relogin_refused : State := fresh [inr expired; answer 500 "boom"].

Definition relogin_refused_st2 : State :=
  snd (login (sent ByRequest (op_request get_cluster (self relogin_refused))
                (inr expired) [answer 500 "boom"] relogin_refused)).

(** A service that rejects the first request, lets the client log in and
    is gone when the request comes again. *)
Definition dropping : State :=
  fresh [inr expired; answer 200 "welcome"; answer 200 "tok-2"].

Definition dropping_st2 : State :=
  snd (login (sent ByRequest (op_request get_cluster (self dropping))
                (inr expired) [answer 200 "welcome"; answer 200 "tok-2"] dropping)).

(** A service that accepts the credentials and refuses the token. *)
Definition jwt_refused : State := fresh [answer 200 "welcome"; answer 500 "no token"].

(** A service that answers a list where an object is expected. *)
Definition listing : State := fresh [answer 200 clusters_text].

(** The arguments of a schedule with every optional argument left out. *)
Definition nightly_params : gmap string pyval :=
  add_schedule_params "prod" "ks" "alice" 7 0 (S754_zero false) "DATACENTER_AWARE" 1
    [] "2026-01-01T00:00:00+00:00" [] [] [] false true (-1).

End Scenarios.

(** * Properties *)

(** ** The validator *)

Lemma check_ok (req : Response) :
  ok req = true → __check_req req = inr tt.
Proof. unfold __check_req. intros ->. reflexivity. Qed.

Lemma check_not_ok (req : Response) :
  ok req = false →
  ∃ msg, __check_req req =
         inl (if bool_decide (status_code req ∈ [403; 498; 499])
              then AuthError msg else HTTPError msg).
Proof.
  unfold __check_req. intros ->. simpl. eexists.
  destruct (bool_decide _); reflexivity.
Qed.

Lemma classify_Ok (req : Response) :
  classify req = Ok ↔ __check_req req = inr tt.
Proof.
  unfold classify. destruct (__check_req req) as [[]|[]]; split; congruence.
Qed.

Lemma classify_AuthExpired (req : Response) :
  classify req = AuthExpired ↔ ∃ msg, __check_req req = inl (AuthError msg).
Proof.
  unfold classify. destruct (__check_req req) as [[]|[]]; split;
    try congruence; try (intros [? ?]; congruence); eauto.
Qed.

Lemma classify_HttpError (req : Response) :
  classify req = HttpError ↔ ∃ msg, __check_req req = inl (HTTPError msg).
Proof.
  unfold classify, __check_req.
  destruct (negb (ok req)); [destruct (bool_decide _)|]; split;
    try congruence; try (intros [? ?]; congruence); eauto.
Qed.

Lemma classify_status (req : Response) :
  classify req =
  if ok req then Ok
  else if bool_decide (status_code req ∈ [403; 498; 499]) then AuthExpired
       else HttpError.
Proof.
  unfold classify, __check_req.
  destruct (ok req); simpl; [reflexivity|]. destruct (bool_decide _); reflexivity.
Qed.

Lemma auth_codes (code : Z) :
  code ∈ [403; 498; 499] ↔ code = 403 ∨ code = 498 ∨ code = 499.
Proof. rewrite !elem_of_cons, elem_of_nil. tauto. Qed.

Lemma ok_status (req : Response) :
  ok req = true ↔ (status_code req < 400 ∨ 600 <= status_code req).
Proof.
  unfold ok. rewrite negb_true_iff, andb_false_iff, Z.leb_gt, Z.ltb_ge. tauto.
Qed.

(** C3, as the code has it: for every status code in 100-599 the validator
    yields exactly one class, Ok for every status below 400 (1xx, 2xx and
    3xx alike), AuthExpired for 403, 498 and 499, HttpError for every other
    status from 400 up; 401 is HttpError. *)
Theorem C3_classification (req : Response) :
  100 <= status_code req <= 599 →
  (classify req = Ok ↔ status_code req < 400) ∧
  (classify req = AuthExpired ↔ status_code req ∈ [403; 498; 499]) ∧
  (classify req = HttpError ↔
     400 <= status_code req ∧ status_code req ∉ [403; 498; 499]) ∧
  (status_code req = 401 → classify req = HttpError).
Proof.
  intros Hrange. rewrite classify_status.
  destruct (ok req) eqn:Hok.
  - apply ok_status in Hok. rewrite auth_codes.
    repeat split; try congruence; try lia; intros; lia.
  - assert (400 <= status_code req) as Hge.
    { destruct (Z.le_gt_cases 400 (status_code req)) as [|Hlt]; [done|].
      assert (ok req = true) by (apply ok_status; lia). congruence. }
    case_bool_decide as Hin; rewrite auth_codes in *;
      repeat split; try congruence; try lia; tauto.
Qed.

Lemma C3_classification_witness :
  classify (with_status 401) = HttpError.
Proof.
  apply (C3_classification (with_status 401)); [simpl; lia | reflexivity].
Defined.

(** C3 as stated fails: 302 is neither 2xx nor one of 403, 498, 499, and
    the validator accepts it instead of raising [HTTPError]. *)
Lemma C3_counterexample :
  100 <= 302 <= 599 ∧ ¬ (200 <= 302 <= 299) ∧ (302 ∉ [403; 498; 499]) ∧
  __check_req (with_status 302) = inr tt ∧
  classify (with_status 302) ≠ HttpError.
Proof.
  split; [lia|]. split; [lia|]. split; [rewrite auth_codes; lia|].
  split; [reflexivity|]. vm_compute. discriminate.
Qed.

(** ** Reading the log of an appended run *)

Lemma count_logins_app (t1 t2 : list event) :
  count_logins (t1 ++ t2) = (count_logins t1 + count_logins t2)%nat.
Proof. induction t1 as [|[] t1 IH]; simpl; rewrite ?IH; reflexivity. Qed.

Lemma request_sends_app (t1 t2 : list event) :
  request_sends (t1 ++ t2) = request_sends t1 ++ request_sends t2.
Proof. induction t1 as [|[|[]|] t1 IH]; simpl; rewrite ?IH; reflexivity. Qed.

Lemma login_sends_app (t1 t2 : list event) :
  login_sends (t1 ++ t2) = login_sends t1 ++ login_sends t2.
Proof. induction t1 as [|[|[]|] t1 IH]; simpl; rewrite ?IH; reflexivity. Qed.

Lemma sends_app (t1 t2 : list event) :
  sends (t1 ++ t2) = sends t1 ++ sends t2.
Proof. induction t1 as [|[] t1 IH]; simpl; rewrite ?IH; reflexivity. Qed.

Lemma login_oks_app (t1 t2 : list event) :
  login_oks (t1 ++ t2) = login_oks t1 ++ login_oks t2.
Proof. induction t1 as [|[] t1 IH]; simpl; rewrite ?IH; reflexivity. Qed.

Lemma last_token_app (cur : option string) (t1 t2 : list event) :
  last_token cur (t1 ++ t2) = last_token (last_token cur t1) t2.
Proof. revert cur. induction t1 as [|[] t1 IH]; intros cur; simpl; rewrite ?IH; reflexivity. Qed.

Lemma bearer_ok_app (cur : option string) (t1 t2 : list event) :
  bearer_ok cur (t1 ++ t2) = bearer_ok cur t1 && bearer_ok (last_token cur t1) t2.
Proof.
  revert cur. induction t1 as [|[] t1 IH]; intros cur; simpl; rewrite ?IH;
    rewrite ?andb_assoc; reflexivity.
Qed.

Lemma last_token_no_login (cur : option string) (tr : list event) :
  login_oks tr = [] → last_token cur tr = cur.
Proof.
  revert cur. induction tr as [|[] tr IH]; intros cur; simpl; auto. discriminate.
Qed.

Lemma request_sends_sends (tr : list event) (req : Request) :
  req ∈ request_sends tr → req ∈ sends tr.
Proof.
  induction tr as [|[|[]|] tr IH]; simpl; rewrite ?elem_of_cons; intuition.
Qed.

Section Proofs.
Context `{E : HttpEnv}.

Lemma adds_refl (st : State) : adds st st [].
Proof. unfold adds. rewrite app_nil_r. reflexivity. Qed.

Lemma adds_trans (a b c : State) (n1 n2 : list event) :
  adds a b n1 → adds b c n2 → adds a c (n1 ++ n2).
Proof. unfold adds. intros H1 H2. rewrite H2, H1, app_assoc. reflexivity. Qed.

Lemma adds_events_since (st st' : State) (new : list event) :
  adds st st' new → events_since st st' = new.
Proof. unfold adds, events_since. intros ->. apply drop_app_length. Qed.

Lemma adds_sent o req res w (st : State) :
  adds st (sent o req res w st) [EvSend o req res].
Proof. reflexivity. Qed.

Lemma adds_logged ev (st : State) : adds st (logged ev st) [ev].
Proof. reflexivity. Qed.

Lemma run_op_unfold (op : req_op) : run_op op = __auth_req (op_attempt op).
Proof. destruct op; reflexivity. Qed.

(** One try, step by step: a transport call, recorded, then the validator. *)
Lemma attempt_run v q p b t (st : State) :
  attempt v q p b t st =
  let req := prepare v q p b t (self st) in
  let '(res, w) := transport (world st) req in
  match res with
  | inl f => (inl (TransportError f), sent ByRequest req res w st)
  | inr resp => match __check_req resp with
                | inl e => (inl e, sent ByRequest req res w st)
                | inr _ => (inr resp, sent ByRequest req res w st)
                end
  end.
Proof.
  unfold attempt, bind, get_self, session_request, lift, ret, prepare, sent; simpl.
  destruct (transport _ _) as [[f|resp] w]; [reflexivity|].
  destruct (__check_req resp) as [e|[]]; reflexivity.
Qed.

(** [login], step by step. *)
Lemma login_run (st : State) :
  login st =
  let st0 := logged EvLogin st in
  let post := login_post (self st) in
  let '(res1, w1) := transport (world st) post in
  let st1 := sent ByLogin post res1 w1 st0 in
  match res1 with
  | inl f => (inl (TransportError f), st1)
  | inr login_req =>
    match __check_req login_req with
    | inl e => (inl e, st1)
    | inr _ =>
      let get := login_get (self st) in
      let '(res2, w2) := transport w1 get in
      let st2 := sent ByLogin get res2 w2 st1 in
      match res2 with
      | inl f => (inl (TransportError f), st2)
      | inr jwt_req =>
        match __check_req jwt_req with
        | inl e => (inl e, st2)
        | inr _ =>
          (inr tt, {| self := authenticated (text jwt_req) (self st);
                      world := w2;
                      trace := trace st2 ++ [EvLoginOk (text jwt_req)] |})
        end
      end
    end
  end.
Proof.
  unfold login, bind, get_self, session_request, lift, ret, modify_self, log,
    login_post, login_get, prepare, sent, logged, authenticated; simpl.
  destruct (transport _ _) as [[f|login_req] w1]; [reflexivity|].
  destruct (__check_req login_req) as [e|[]]; [reflexivity|]. simpl.
  destruct (transport _ _) as [[f|jwt_req] w2]; [reflexivity|].
  destruct (__check_req jwt_req) as [e|[]]; reflexivity.
Qed.

(** What one try leaves behind: the session as it was, one request of the
    helper in the log. *)
Lemma attempt_effect v q p b t (st : State) :
  let st' := snd (attempt v q p b t st) in
  self st' = self st ∧
  ∃ res, adds st st' [EvSend ByRequest (prepare v q p b t (self st)) res].
Proof.
  rewrite attempt_run. simpl.
  destruct (transport _ _) as [[f|resp] w]; simpl; [eauto using adds_sent|].
  destruct (__check_req resp) as [e|[]]; simpl; eauto using adds_sent.
Qed.

(** What [login] leaves behind.  It fails with the session as it was and
    nothing but its own transport calls in the log, no [/jwt] call if the
    [/login] call was the one that failed; or it completes, the session now
    holding the text of the [/jwt] response and its bearer header. *)
Lemma login_effect (st : State) :
  let st' := snd (login st) in
  let post := login_post (self st) in
  let get := login_get (self st) in
  (∃ e res1,
      fst (login st) = inl e ∧ self st' = self st ∧
      adds st st' [EvLogin; EvSend ByLogin post res1] ∧
      (∀ r, res1 = inr r → __check_req r = inl e)) ∨
  (∃ e r1 res2,
      fst (login st) = inl e ∧ self st' = self st ∧
      adds st st' [EvLogin; EvSend ByLogin post (inr r1); EvSend ByLogin get res2] ∧
      __check_req r1 = inr tt ∧
      (∀ r, res2 = inr r → __check_req r = inl e)) ∨
  (∃ r1 jwt_req,
      fst (login st) = inr tt ∧
      self st' = authenticated (text jwt_req) (self st) ∧
      adds st st' [EvLogin; EvSend ByLogin post (inr r1);
                   EvSend ByLogin get (inr jwt_req); EvLoginOk (text jwt_req)] ∧
      __check_req r1 = inr tt ∧ __check_req jwt_req = inr tt).
Proof.
  rewrite login_run. simpl. unfold adds.
  destruct (transport _ _) as [[f|login_req] w1]; simpl.
  { left. exists (TransportError f), (inl f). rewrite <- app_assoc.
    repeat split; auto. discriminate. }
  destruct (__check_req login_req) as [e|[]] eqn:Hc1; simpl.
  { left. exists e, (inr login_req). rewrite <- app_assoc.
    repeat split; auto. congruence. }
  destruct (transport _ _) as [[f|jwt_req] w2]; simpl.
  { right; left. exists (TransportError f), login_req, (inl f).
    rewrite <- !app_assoc. repeat split; auto. discriminate. }
  destruct (__check_req jwt_req) as [e|[]] eqn:Hc2; simpl.
  { right; left. exists e, login_req, (inr jwt_req).
    rewrite <- !app_assoc. repeat split; auto. congruence. }
  right; right. exists login_req, jwt_req. rewrite <- !app_assoc.
  repeat split; auto.
Qed.

(** The decorator, step by step. *)
Lemma auth_req_run {A} (func : M A) (st : State) :
  __auth_req func st =
  match func st with
  | (inl (AuthError _), st1) =>
      match login st1 with
      | (inl e, st2) => (inl e, st2)
      | (inr _, st2) => func st2
      end
  | r => r
  end.
Proof.
  unfold __auth_req, bind.
  destruct (func st) as [[[]|] st1]; reflexivity.
Qed.

(** The log entries of a [login] call, whatever its outcome: one entry for
    the call itself, no request of a verb helper. *)
Lemma login_adds (st : State) :
  ∃ new, adds st (snd (login st)) new ∧
         count_logins new = 1%nat ∧ request_sends new = [] ∧
         (length (login_sends new) <= 2)%nat ∧
         (∀ req, req ∈ login_sends new →
                 req = login_post (self st) ∨ req = login_get (self st)) ∧
         (∀ e, fst (login st) = inl e →
               login_oks new = [] ∧ self (snd (login st)) = self st) ∧
         (fst (login st) = inr tt →
          ∃ tok, login_oks new = [tok] ∧
                 self (snd (login st)) = authenticated tok (self st)).
Proof.
  destruct (login_effect st) as
    [(e & res1 & Hr & Hs & Ha & _)|[(e & r1 & res2 & Hr & Hs & Ha & _)
                                   |(r1 & jwt & Hr & Hs & Ha & _)]];
    eexists; (split; [exact Ha|]); simpl; rewrite Hr;
    repeat split; auto; try lia; try congruence; try discriminate;
    eauto; intros req; rewrite ?elem_of_cons, elem_of_nil; tauto.
Qed.

(** Everything a verb helper can do.  Either the first try settles the call
    (any outcome but [AuthError]); or the first try raised [AuthError] and
    [login] failed; or [login] completed and the second try settles the
    call, whatever its outcome. *)
Lemma run_op_effect (op : req_op) (st : State) :
  let st' := snd (run_op op st) in
  let req1 := op_request op (self st) in
  (∃ res, adds st st' [EvSend ByRequest req1 res] ∧ self st' = self st ∧
          ∀ msg, fst (run_op op st) ≠ inl (AuthError msg)) ∨
  (∃ r1 new e,
      adds st st' (EvSend ByRequest req1 (inr r1) :: new) ∧
      classify r1 = AuthExpired ∧ self st' = self st ∧
      fst (run_op op st) = inl e ∧
      count_logins new = 1%nat ∧ request_sends new = [] ∧ login_oks new = [] ∧
      (∀ req, req ∈ login_sends new →
              req = login_post (self st) ∨ req = login_get (self st))) ∨
  (∃ r1 new tok res2,
      adds st st' (EvSend ByRequest req1 (inr r1) :: new ++
                   [EvSend ByRequest (op_request op (self st')) res2]) ∧
      classify r1 = AuthExpired ∧ self st' = authenticated tok (self st) ∧
      count_logins new = 1%nat ∧ request_sends new = [] ∧ login_oks new = [tok] ∧
      (∀ req, req ∈ login_sends new →
              req = login_post (self st) ∨ req = login_get (self st))).
Proof.
  rewrite run_op_unfold, auth_req_run. unfold op_attempt.
  rewrite attempt_run. fold (op_request op (self st)). simpl.
  destruct (transport _ _) as [[f|r1] w1]; simpl.
  { left. eexists. repeat split; congruence. }
  destruct (__check_req r1) as [e|[]] eqn:Hc1; simpl;
    [|left; eexists; repeat split; congruence].
  destruct e as [msg| | | | |]; simpl;
    try (left; eexists; repeat split; congruence).
  assert (classify r1 = AuthExpired) as Hcl by (apply classify_AuthExpired; eauto).
  set (st1 := sent ByRequest (op_request op (self st)) (inr r1) w1 st).
  destruct (login_adds st1) as (new & Ha & Hn & Hq & _ & Hls & Hfail & Hok).
  destruct (login st1) as [[e|[]] st2] eqn:Hl; simpl in *.
  { right; left. exists r1, new, e. destruct (Hfail e eq_refl) as [Hno Hself].
    repeat split; auto.
    apply (adds_trans st st1 st2 [_] new); [apply adds_sent|exact Ha]. }
  right; right. destruct (Hok eq_refl) as (tok & Hoks & Hself).
  pose proof (attempt_effect (op_verb op) (op_query op) (op_params op) (op_body op)
                (op_timeout op) st2) as [Hs2 [res2 Ha2]].
  fold (op_request op (self st2)) in Ha2. simpl in Hs2, Ha2.
  exists r1, new, tok, res2. rewrite Hs2.
  repeat split; auto.
  apply (adds_trans st st1 _ [_] (new ++ [_])); [apply adds_sent|].
  apply (adds_trans st1 st2 _ new [_]); assumption.
Qed.

(** ** The retry: one reauthentication, one second try *)

(** The run of a helper whose first response is an auth failure and whose
    [login] completes: the second response decides, and the log gained the
    first request, the entries of the one [login], the second request. *)
Lemma retry_run (op : req_op) (st st2 : State) (r1 r2 : Response) (w1 w3 : World) :
  let req1 := op_request op (self st) in
  let st1 := sent ByRequest req1 (inr r1) w1 st in
  let req2 := op_request op (self st2) in
  let st3 := sent ByRequest req2 (inr r2) w3 st2 in
  transport (world st) req1 = (inr r1, w1) →
  classify r1 = AuthExpired →
  login st1 = (inr tt, st2) →
  transport (world st2) req2 = (inr r2, w3) →
  run_op op st = match __check_req r2 with
                 | inl e => (inl e, st3)
                 | inr _ => (inr r2, st3)
                 end ∧
  ∃ new, adds st st3 (EvSend ByRequest req1 (inr r1) :: new ++
                      [EvSend ByRequest req2 (inr r2)]) ∧
         count_logins new = 1%nat ∧ request_sends new = [].
Proof.
  intros req1 st1 req2 st3 Ht1 Hc1 Hl Ht2.
  apply classify_AuthExpired in Hc1 as [msg Hc1].
  split.
  - rewrite run_op_unfold, auth_req_run. unfold op_attempt.
    rewrite attempt_run. fold (op_request op (self st)). fold req1.
    cbv zeta. rewrite Ht1, Hc1. fold st1. rewrite Hl.
    rewrite attempt_run. fold (op_request op (self st2)). fold req2.
    cbv zeta. rewrite Ht2. fold st3.
    destruct (__check_req r2) as [e|[]]; reflexivity.
  - destruct (login_adds st1) as (new & Ha & Hn & Hq & _).
    rewrite Hl in Ha. simpl in Ha. exists new. repeat split; auto.
    apply (adds_trans st st1 st3 [_] (new ++ [_])); [apply adds_sent|].
    apply (adds_trans st1 st2 st3 new [_]); [exact Ha|apply adds_sent].
Qed.

(** C1: for each of the five verb helpers, when the first response is
    classified AuthExpired, [login] completes, and the response to the
    request sent again is classified Ok, the helper returns that second
    response, and [login] was entered exactly once during the call. *)
Theorem C1_retry_once (op : req_op) (st st2 : State) (r1 r2 : Response)
    (w1 w3 : World) :
  let req1 := op_request op (self st) in
  let st1 := sent ByRequest req1 (inr r1) w1 st in
  let req2 := op_request op (self st2) in
  let st3 := sent ByRequest req2 (inr r2) w3 st2 in
  transport (world st) req1 = (inr r1, w1) →
  classify r1 = AuthExpired →
  login st1 = (inr tt, st2) →
  transport (world st2) req2 = (inr r2, w3) →
  classify r2 = Ok →
  run_op op st = (inr r2, st3) ∧
  count_logins (events_since st st3) = 1%nat.
Proof.
  intros req1 st1 req2 st3 Ht1 Hc1 Hl Ht2 Hc2.
  destruct (retry_run op st st2 r1 r2 w1 w3 Ht1 Hc1 Hl Ht2)
    as (Hrun & new & Ha & Hn & _).
  apply classify_Ok in Hc2. rewrite Hc2 in Hrun. split; [exact Hrun|].
  subst req1 st1 req2 st3.
  rewrite (adds_events_since _ _ _ Ha). simpl.
  rewrite count_logins_app, Hn. reflexivity.
Qed.

(** C2: a verb helper never hands its request to the transport more than
    twice and never enters [login] more than once.  When the first
    response is classified AuthExpired, [login] completes and the second
    response is refused by the validator, the helper raises exactly the
    exception of that second response ([AuthError] if it is classified
    AuthExpired, [HTTPError] if HttpError), after one [login] and two
    sends. *)
Theorem C2_single_retry (op : req_op) (st : State) :
  (length (request_sends (events_since st (snd (run_op op st)))) <= 2)%nat ∧
  (count_logins (events_since st (snd (run_op op st))) <= 1)%nat ∧
  ∀ (st2 : State) (r1 r2 : Response) (w1 w3 : World) (e : exn),
    let req1 := op_request op (self st) in
    let st1 := sent ByRequest req1 (inr r1) w1 st in
    let req2 := op_request op (self st2) in
    let st3 := sent ByRequest req2 (inr r2) w3 st2 in
    transport (world st) req1 = (inr r1, w1) →
    classify r1 = AuthExpired →
    login st1 = (inr tt, st2) →
    transport (world st2) req2 = (inr r2, w3) →
    __check_req r2 = inl e →
    run_op op st = (inl e, st3) ∧
    (classify r2 = AuthExpired → ∃ msg, e = AuthError msg) ∧
    (classify r2 = HttpError → ∃ msg, e = HTTPError msg) ∧
    count_logins (events_since st st3) = 1%nat ∧
    request_sends (events_since st st3) = [req1; req2].
Proof.
  split; [|split].
  - destruct (run_op_effect op st) as
      [(res & Ha & _)|[(r1 & new & e & Ha & _ & _ & _ & _ & Hq & _)
                      |(r1 & new & tok & res2 & Ha & _ & _ & _ & Hq & _)]];
      rewrite (adds_events_since _ _ _ Ha); simpl;
      rewrite ?request_sends_app, ?Hq; simpl; lia.
  - destruct (run_op_effect op st) as
      [(res & Ha & _)|[(r1 & new & e & Ha & _ & _ & _ & Hn & _)
                      |(r1 & new & tok & res2 & Ha & _ & _ & Hn & _)]];
      rewrite (adds_events_since _ _ _ Ha); simpl;
      rewrite ?count_logins_app, ?Hn; simpl; lia.
  - intros st2 r1 r2 w1 w3 e req1 st1 req2 st3 Ht1 Hc1 Hl Ht2 Hc2.
    destruct (retry_run op st st2 r1 r2 w1 w3 Ht1 Hc1 Hl Ht2)
      as (Hrun & new & Ha & Hn & Hq).
    rewrite Hc2 in Hrun. split; [exact Hrun|].
    subst req1 st1 req2 st3.
    rewrite !(adds_events_since _ _ _ Ha). simpl.
    rewrite count_logins_app, request_sends_app, Hn, Hq. simpl.
    repeat split; auto.
    + intros [msg Hm]%classify_AuthExpired. exists msg. congruence.
    + intros [msg Hm]%classify_HttpError. exists msg. congruence.
Qed.

(** ** What the helpers hand to the transport *)

(** The requests of a helper are the request of its arguments, prepared
    from the session as it is before the call and, if a second try follows,
    as [login] left it. *)
Lemma run_op_requests (op : req_op) (st : State) :
  let st' := snd (run_op op st) in
  request_sends (events_since st st') = [op_request op (self st)] ∨
  request_sends (events_since st st') =
    [op_request op (self st); op_request op (self st')].
Proof.
  destruct (run_op_effect op st) as
    [(res & Ha & _)|[(r1 & new & e & Ha & _ & _ & _ & _ & Hq & _)
                    |(r1 & new & tok & res2 & Ha & _ & _ & _ & Hq & _)]];
    simpl; rewrite (adds_events_since _ _ _ Ha); simpl;
    rewrite ?request_sends_app, ?Hq; simpl; auto.
Qed.

Lemma run_op_request_shape (op : req_op) (st : State) (req : Request) :
  req ∈ request_sends (events_since st (snd (run_op op st))) →
  ∃ me, req = op_request op me.
Proof.
  destruct (run_op_requests op st) as [-> | ->];
    rewrite ?elem_of_cons, elem_of_nil; intros H; decompose [or] H; eauto; tauto.
Qed.

Lemma sends_split (tr : list event) (req : Request) :
  req ∈ sends tr ↔ req ∈ request_sends tr ∨ req ∈ login_sends tr.
Proof.
  induction tr as [|[|[]|] tr IH]; simpl; rewrite ?elem_of_cons, ?elem_of_nil;
    tauto.
Qed.

(** Whatever a helper sends is its own request, or one of the two requests
    of [login]. *)
Lemma run_op_sends (op : req_op) (st : State) (req : Request) :
  req ∈ sends (events_since st (snd (run_op op st))) →
  (∃ me, req = op_request op me) ∨
  req = login_post (self st) ∨ req = login_get (self st).
Proof.
  rewrite sends_split. intros [Hr|Hl]; [left; eauto using run_op_request_shape|].
  right. revert Hl.
  destruct (run_op_effect op st) as
    [(res & Ha & _)|[(r1 & new & e & Ha & _ & _ & _ & _ & _ & _ & Hls)
                    |(r1 & new & tok & res2 & Ha & _ & _ & _ & _ & _ & Hls)]];
    simpl in Ha; rewrite (adds_events_since _ _ _ Ha); simpl;
    rewrite ?login_sends_app; simpl; rewrite ?app_nil_r; auto.
  rewrite elem_of_nil. tauto.
Qed.

(** C6, as the code has it: the requests [__post] and [__put] send carry
    the caller's payload as form data, those of [__patch] carry it as a
    JSON document, and those of [__delete], which takes no payload, carry
    no body. *)
Theorem C6_bodies (st : State) (query : string) (params : gmap string pyval)
    (timeout : pyval) (req : Request) :
  (∀ data, req ∈ request_sends (events_since st (snd (__post query params data timeout st))) →
           req_verb req = POST ∧ req_body req = FormBody data) ∧
  (∀ data, req ∈ request_sends (events_since st (snd (__put query params data timeout st))) →
           req_verb req = PUT ∧ req_body req = FormBody data) ∧
  (∀ doc, req ∈ request_sends (events_since st (snd (__patch query params doc timeout st))) →
          req_verb req = PATCH ∧ req_body req = JsonBody doc) ∧
  (req ∈ request_sends (events_since st (snd (__delete query params timeout st))) →
   req_verb req = DELETE ∧ req_body req = NoBody).
Proof.
  split; [|split; [|split]].
  - intros data [me ->]%(run_op_request_shape (OpPost query params data timeout)).
    split; reflexivity.
  - intros data [me ->]%(run_op_request_shape (OpPut query params data timeout)).
    split; reflexivity.
  - intros doc [me ->]%(run_op_request_shape (OpPatch query params doc timeout)).
    split; reflexivity.
  - intros [me ->]%(run_op_request_shape (OpDelete query params timeout)).
    split; reflexivity.
Qed.

(** ** Passwords and logins *)

(** C7: [update_password] returns with the new password stored and
    everything else as it was: same token, headers, URL, user and verify
    setting, nothing handed to the transport, the service untouched. *)
Theorem C7_update_password (new_password : string) (st : State) :
  let st' := snd (update_password new_password st) in
  fst (update_password new_password st) = inr tt ∧
  __password (self st') = new_password ∧
  token (self st') = token (self st) ∧
  __s_headers (self st') = __s_headers (self st) ∧
  url (self st') = url (self st) ∧
  user (self st') = user (self st) ∧
  __s_verify (self st') = __s_verify (self st) ∧
  world st' = world st ∧
  trace st' = trace st ∧
  count_logins (events_since st st') = 0%nat ∧
  sends (events_since st st') = [].
Proof.
  simpl. unfold events_since. simpl. rewrite drop_all. repeat split.
Qed.

(** C5, as the code has it.  When the validator refuses the response to
    the POST to [/login] (its status is in 400-599), [login] raises the
    validator's exception, [HTTPError] unless the status is 403, 498 or
    499, having sent nothing but that POST.  A failure of [login] is the
    outcome of [__init__] when it logs in, and of a decorated helper whose
    first try raised [AuthError]; the helper sends nothing after it. *)
Theorem C5_login_failure :
  (∀ (st : State) (login_req : Response) (w1 : World) (e : exn),
     transport (world st) (login_post (self st)) = (inr login_req, w1) →
     __check_req login_req = inl e →
     fst (login st) = inl e ∧
     sends (events_since st (snd (login st))) = [login_post (self st)] ∧
     self (snd (login st)) = self st ∧
     (status_code login_req ∉ [403; 498; 499] → ∃ msg, e = HTTPError msg)) ∧
  (∀ (u usr pw : string) (verify_ssl : bool) (w : World),
     __init__ u usr pw verify_ssl true w =
     login {| self := new_session u usr pw verify_ssl; world := w; trace := [] |}) ∧
  (∀ (A : Type) (func : M A) (st st1 st2 : State) (msg : string) (e : exn),
     func st = (inl (AuthError msg), st1) →
     login st1 = (inl e, st2) →
     __auth_req func st = (inl e, st2)).
Proof.
  split; [|split].
  - intros st login_req w1 e Ht Hc.
    rewrite login_run. cbv zeta. rewrite Ht, Hc. simpl.
    split; [reflexivity|]. split.
    + unfold events_since. simpl. rewrite <- app_assoc, drop_app_length. reflexivity.
    + split; [reflexivity|]. intros Hcode.
      unfold __check_req in Hc. destruct (negb (ok login_req)); [|discriminate].
      rewrite bool_decide_eq_false_2 in Hc by assumption.
      inversion Hc. eauto.
  - reflexivity.
  - intros A func st st1 st2 msg e Hf Hl. rewrite auth_req_run, Hf, Hl. reflexivity.
Qed.

(** ** The facade *)

(** Decoding the response, or dropping it, does not touch the state. *)
Lemma snd_bind_lift {A B} (m : M A) (f : A → result B) (st : State) :
  snd (bind m (fun a => lift (f a)) st) = snd (m st).
Proof. unfold bind, lift. destruct (m st) as [[e|a] st']; reflexivity. Qed.

Lemma snd_bind_ret {A B} (m : M A) (b : B) (st : State) :
  snd (bind m (fun _ => ret b) st) = snd (m st).
Proof. unfold bind, ret. destruct (m st) as [[e|a] st']; reflexivity. Qed.

Lemma get_params_sent q params t (st : State) (req : Request) :
  req ∈ request_sends (events_since st (snd (__get q params t st))) →
  req_params req = params.
Proof. intros [me ->]%(run_op_request_shape (OpGet q params t)). reflexivity. Qed.

Lemma post_params_sent q params d t (st : State) (req : Request) :
  req ∈ request_sends (events_since st (snd (__post q params d t st))) →
  req_params req = params.
Proof. intros [me ->]%(run_op_request_shape (OpPost q params d t)). reflexivity. Qed.

Lemma run_op_sends_something (op : req_op) (st : State) :
  request_sends (events_since st (snd (run_op op st))) ≠ [].
Proof. destruct (run_op_requests op st) as [-> | ->]; discriminate. Qed.

(** A conditional entry under another key does not show at this key. *)
Lemma insert_if_lookup (b : bool) (k k' : string) (v : pyval) (m : gmap string pyval) :
  k ≠ k' → (if b then <[k:=v]> m else m) !! k' = m !! k'.
Proof. intros Hne. destruct b; [apply lookup_insert_ne; exact Hne|reflexivity]. Qed.

(** Walk through the conditional entries of a parameter map: those under
    other keys are skipped, the one whose test is known is decided. *)
Ltac skip_layers :=
  cbv zeta;
  repeat first
    [ rewrite insert_if_lookup by discriminate
    | match goal with
      | |- context [truthy ?v] => change (truthy v) with false; cbv iota
      end ].

(** The parameters built by the facade methods, key by key. *)
Lemma get_repairs_params_spec (cluster : string) (states : list string) :
  (cluster = "" → get_repairs_params cluster states !! "cluster_name" = None) ∧
  (states = [] → get_repairs_params cluster states !! "state" = None).
Proof.
  unfold get_repairs_params. split; intros ->; skip_layers; reflexivity.
Qed.

Lemma get_schedules_params_spec (cluster keyspace : string) :
  (cluster = "" → get_schedules_params cluster keyspace !! "clusterName" = None) ∧
  (keyspace = "" → get_schedules_params cluster keyspace !! "keyspace" = None).
Proof.
  unfold get_schedules_params. split; intros ->; skip_layers; reflexivity.
Qed.

Lemma snapshot_params_spec (snapshot_name owner cause keyspace : string)
    (tables : list string) :
  let params := snapshot_params snapshot_name owner cause keyspace tables in
  (cause = "" → params !! "cause" = None) ∧
  (keyspace = "" → params !! "keyspace" = None) ∧
  (tables = [] → params !! "tables" = None).
Proof.
  unfold snapshot_params. repeat split; intros ->;
    skip_layers; reflexivity.
Qed.

Lemma add_schedule_params_spec (cluster keyspace owner : string)
    (schedule_days_between segment_count_per_node : Z) (intensity : spec_float)
    (repair_parallelism : string) (repair_thread_count : Z) (nodes : list string)
    (schedule_trigger_time : string) (datacenters tables blacklisted_tables : list string)
    (incremental_repair adaptive : bool) (percent_unrepaired_threshold : Z) :
  let params := add_schedule_params cluster keyspace owner schedule_days_between
                  segment_count_per_node intensity repair_parallelism
                  repair_thread_count nodes schedule_trigger_time datacenters tables
                  blacklisted_tables incremental_repair adaptive
                  percent_unrepaired_threshold in
  (tables = [] → params !! "tables" = None) ∧
  (segment_count_per_node = 0 → params !! "segmentCountPerNode" = None) ∧
  (intensity = S754_zero false → params !! "intensity" = None) ∧
  (nodes = [] → params !! "nodes" = None) ∧
  (datacenters = [] → params !! "datacenters" = None) ∧
  (blacklisted_tables = [] → params !! "blacklistedTables" = None).
Proof.
  unfold add_schedule_params. repeat split; intros ->;
    skip_layers; reflexivity.
Qed.

(** C8: in every request that [get_repairs], [get_schedules],
    [add_schedule], [create_cluster_snapshot] or [create_host_snapshot]
    hands to the transport, the second try included, an argument left at
    its empty default (the empty string, the empty list, 0, 0.0) has no
    entry among the query parameters; and each of them does send. *)
Theorem C8_empty_filters_omitted (st : State) (timeout : pyval) (req : Request) :
  (∀ cluster states,
     let new := events_since st (snd (get_repairs cluster states timeout st)) in
     request_sends new ≠ [] ∧
     (req ∈ request_sends new →
      (cluster = "" → req_params req !! "cluster_name" = None) ∧
      (states = [] → req_params req !! "state" = None))) ∧
  (∀ cluster keyspace,
     let new := events_since st (snd (get_schedules cluster keyspace timeout st)) in
     request_sends new ≠ [] ∧
     (req ∈ request_sends new →
      (cluster = "" → req_params req !! "clusterName" = None) ∧
      (keyspace = "" → req_params req !! "keyspace" = None))) ∧
  (∀ cluster snapshot_name owner cause keyspace tables,
     let new := events_since st (snd (create_cluster_snapshot cluster snapshot_name
                                        owner cause keyspace tables timeout st)) in
     request_sends new ≠ [] ∧
     (req ∈ request_sends new →
      (cause = "" → req_params req !! "cause" = None) ∧
      (keyspace = "" → req_params req !! "keyspace" = None) ∧
      (tables = [] → req_params req !! "tables" = None))) ∧
  (∀ cluster host snapshot_name owner cause keyspace tables,
     let new := events_since st (snd (create_host_snapshot cluster host snapshot_name
                                        owner cause keyspace tables timeout st)) in
     request_sends new ≠ [] ∧
     (req ∈ request_sends new →
      (cause = "" → req_params req !! "cause" = None) ∧
      (keyspace = "" → req_params req !! "keyspace" = None) ∧
      (tables = [] → req_params req !! "tables" = None))) ∧
  (∀ cluster keyspace owner schedule_days_between segment_count_per_node intensity
     repair_parallelism repair_thread_count nodes schedule_trigger_time datacenters
     tables blacklisted_tables incremental_repair adaptive percent_unrepaired_threshold,
     let new := events_since st (snd (add_schedule cluster keyspace owner
                  schedule_days_between segment_count_per_node intensity
                  repair_parallelism repair_thread_count nodes schedule_trigger_time
                  datacenters tables blacklisted_tables incremental_repair adaptive
                  percent_unrepaired_threshold timeout st)) in
     request_sends new ≠ [] ∧
     (req ∈ request_sends new →
      (tables = [] → req_params req !! "tables" = None) ∧
      (segment_count_per_node = 0 → req_params req !! "segmentCountPerNode" = None) ∧
      (intensity = S754_zero false → req_params req !! "intensity" = None) ∧
      (nodes = [] → req_params req !! "nodes" = None) ∧
      (datacenters = [] → req_params req !! "datacenters" = None) ∧
      (blacklisted_tables = [] → req_params req !! "blacklistedTables" = None))).
Proof.
  split; [|split; [|split; [|split]]]; intros; subst new.
  - unfold get_repairs. rewrite snd_bind_lift.
    split; [apply (run_op_sends_something (OpGet _ _ _))|].
    intros ->%get_params_sent. apply get_repairs_params_spec.
  - unfold get_schedules. rewrite snd_bind_lift.
    split; [apply (run_op_sends_something (OpGet _ _ _))|].
    intros ->%get_params_sent. apply get_schedules_params_spec.
  - unfold create_cluster_snapshot. rewrite snd_bind_ret.
    split; [apply (run_op_sends_something (OpPost _ _ _ _))|].
    intros ->%post_params_sent. apply snapshot_params_spec.
  - unfold create_host_snapshot. rewrite snd_bind_ret.
    split; [apply (run_op_sends_something (OpPost _ _ _ _))|].
    intros ->%post_params_sent. apply snapshot_params_spec.
  - unfold add_schedule. rewrite snd_bind_ret.
    split; [apply (run_op_sends_something (OpPost _ _ _ _))|].
    intros ->%post_params_sent. apply add_schedule_params_spec.
Qed.

(** ** Deleting by owner *)

Lemma run_op_adds (op : req_op) (st : State) :
  ∃ res rest, adds st (snd (run_op op st))
                (EvSend ByRequest (op_request op (self st)) res :: rest).
Proof.
  destruct (run_op_effect op st) as
    [(res & Ha & _)|[(r1 & new & e & Ha & _)|(r1 & new & tok & res2 & Ha & _)]];
    eauto.
Qed.

Lemma login_requests_not_delete (me : Session) (req : Request) :
  req = login_post me ∨ req = login_get me → req_verb req ≠ DELETE.
Proof. intros [-> | ->]; discriminate. Qed.

(** A [__get] never sends a DELETE. *)
Lemma get_sends_no_delete q p t (st : State) (req : Request) :
  req ∈ sends (events_since st (snd (__get q p t st))) → req_verb req ≠ DELETE.
Proof.
  intros [[me ->]|H]%(run_op_sends (OpGet q p t)); [discriminate|].
  eauto using login_requests_not_delete.
Qed.

(** The DELETE requests of a [__delete] are the one of its arguments. *)
Lemma delete_sends q p t (st : State) (req : Request) :
  req ∈ sends (events_since st (snd (__delete q p t st))) →
  req_verb req = DELETE → ∃ me, req = prepare DELETE q p NoBody t me.
Proof.
  intros [[me ->]|H]%(run_op_sends (OpDelete q p t)); [eauto|].
  intros Hv. apply login_requests_not_delete in H. contradiction.
Qed.

Lemma fetch_then_delete_run (query : string) (timeout : pyval) (st : State) :
  fetch_then_delete query timeout st =
  match fetch query st with
  | (inl e, st1) => (inl e, st1)
  | (inr resource, st1) =>
      match getitem resource "owner" with
      | inl e => (inl e, st1)
      | inr owner => void (__delete query {[ "owner" := owner ]} timeout) st1
      end
  end.
Proof.
  unfold fetch_then_delete, bind at 1.
  destruct (fetch query st) as [[e|resource] st1]; [reflexivity|].
  unfold bind at 1, lift at 1.
  destruct (getitem resource "owner"); reflexivity.
Qed.

Lemma fetch_then_delete_spec (query : string) (timeout : pyval) (st : State) :
  let st1 := snd (fetch query st) in
  let run := fetch_then_delete query timeout st in
  let new := events_since st (snd run) in
  head (sends new) = Some (prepare GET query ∅ NoBody (PInt 10) (self st)) ∧
  (∀ e, fst (fetch query st) = inl e →
        run = (inl e, st1) ∧ ∀ req, req ∈ sends new → req_verb req ≠ DELETE) ∧
  (∀ resource e,
      fst (fetch query st) = inr resource → getitem resource "owner" = inl e →
      run = (inl e, st1) ∧ ∀ req, req ∈ sends new → req_verb req ≠ DELETE) ∧
  (∀ resource owner,
      fst (fetch query st) = inr resource → getitem resource "owner" = inr owner →
      run = void (__delete query {[ "owner" := owner ]} timeout) st1 ∧
      (∃ me, prepare DELETE query {[ "owner" := owner ]} NoBody timeout me ∈ sends new) ∧
      ∀ req, req ∈ sends new → req_verb req = DELETE →
             ∃ me, req = prepare DELETE query {[ "owner" := owner ]} NoBody timeout me).
Proof.
  intros st1 run new.
  assert (Hst1 : st1 = snd (__get query ∅ (PInt 10) st))
    by (unfold st1, fetch; apply snd_bind_lift).
  destruct (run_op_adds (OpGet query ∅ (PInt 10)) st) as (res & rest & Ha).
  simpl in Ha. rewrite <- Hst1 in Ha.
  set (get := prepare GET query ∅ NoBody (PInt 10) (self st)) in *.
  assert (Hget : ∀ req, req ∈ sends (EvSend ByRequest get res :: rest) →
                        req_verb req ≠ DELETE).
  { intros req Hin. apply (get_sends_no_delete query ∅ (PInt 10) st).
    rewrite <- Hst1, (adds_events_since _ _ _ Ha). exact Hin. }
  assert (Hfail : ∀ e, run = (inl e, st1) →
            head (sends new) = Some get ∧
            ∀ req, req ∈ sends new → req_verb req ≠ DELETE).
  { intros e Hrun. unfold new. rewrite Hrun. simpl.
    rewrite (adds_events_since _ _ _ Ha). split; [reflexivity|exact Hget]. }
  assert (Hrun : run = fetch_then_delete query timeout st) by reflexivity.
  rewrite fetch_then_delete_run in Hrun. clearbody run. subst st1.
  destruct (fetch query st) as [[e|resource] st1]; simpl in *.
  - destruct (Hfail e Hrun) as [Hh Hn].
    repeat split; auto; try congruence; try discriminate.
  - destruct (getitem resource "owner") as [e|owner] eqn:Hg.
    + destruct (Hfail e Hrun) as [Hh Hn].
      split; [exact Hh|]. split; [discriminate|]. split.
      * intros r e' [= <-] He. rewrite Hg in He. injection He as <-. auto.
      * intros r o [= <-] Ho. rewrite Hg in Ho. discriminate.
    + destruct (run_op_adds (OpDelete query {[ "owner" := owner ]} timeout) st1)
        as (res2 & rest2 & Ha2). simpl in Ha2.
      pose proof (adds_trans _ _ _ _ _ Ha Ha2) as Hall.
      assert (Hnew : new = (EvSend ByRequest get res :: rest) ++
                           events_since st1 (snd (__delete query {[ "owner" := owner ]}
                                                    timeout st1))).
      { unfold new. rewrite Hrun. unfold void. rewrite snd_bind_ret.
        rewrite (adds_events_since _ _ _ Hall), (adds_events_since _ _ _ Ha2).
        reflexivity. }
      split; [rewrite Hnew; reflexivity|].
      split; [discriminate|].
      split; [intros r e' [= <-] He; rewrite Hg in He; discriminate|].
      intros r o [= <-] Ho. rewrite Hg in Ho. injection Ho as <-.
      split; [exact Hrun|]. split.
      * exists (self st1). rewrite Hnew, sends_app, elem_of_app. right.
        rewrite (adds_events_since _ _ _ Ha2). simpl. apply elem_of_cons. left.
        reflexivity.
      * intros req. rewrite Hnew, sends_app, elem_of_app. intros [Hin|Hin] Hv.
        -- apply Hget in Hin. contradiction.
        -- eauto using delete_sends.
Qed.

(** C9: [delete_repair] and [delete_schedule] first send the GET for the
    resource.  If reading it fails, they raise that failure and no DELETE
    was sent.  If it yields a document with an owner, they go on as
    [__delete] with that owner as the one query parameter, and every DELETE
    sent is that request. *)
Theorem C9_delete_by_owner (id : string) (timeout : pyval) (st : State) :
  (let query := "repair_run/" +:+ id in
   let st1 := snd (get_repair id (PInt 10) st) in
   let run := delete_repair id timeout st in
   let new := events_since st (snd run) in
   head (sends new) = Some (prepare GET query ∅ NoBody (PInt 10) (self st)) ∧
   (∀ e, fst (get_repair id (PInt 10) st) = inl e →
         run = (inl e, st1) ∧ ∀ req, req ∈ sends new → req_verb req ≠ DELETE) ∧
   (∀ repair owner,
       fst (get_repair id (PInt 10) st) = inr repair →
       getitem repair "owner" = inr owner →
       run = void (__delete query {[ "owner" := owner ]} timeout) st1 ∧
       (∃ me, prepare DELETE query {[ "owner" := owner ]} NoBody timeout me ∈ sends new) ∧
       ∀ req, req ∈ sends new → req_verb req = DELETE →
              ∃ me, req = prepare DELETE query {[ "owner" := owner ]} NoBody timeout me)) ∧
  (let query := "repair_schedule/" +:+ id in
   let st1 := snd (get_schedule id (PInt 10) st) in
   let run := delete_schedule id timeout st in
   let new := events_since st (snd run) in
   head (sends new) = Some (prepare GET query ∅ NoBody (PInt 10) (self st)) ∧
   (∀ e, fst (get_schedule id (PInt 10) st) = inl e →
         run = (inl e, st1) ∧ ∀ req, req ∈ sends new → req_verb req ≠ DELETE) ∧
   (∀ schedule owner,
       fst (get_schedule id (PInt 10) st) = inr schedule →
       getitem schedule "owner" = inr owner →
       run = void (__delete query {[ "owner" := owner ]} timeout) st1 ∧
       (∃ me, prepare DELETE query {[ "owner" := owner ]} NoBody timeout me ∈ sends new) ∧
       ∀ req, req ∈ sends new → req_verb req = DELETE →
              ∃ me, req = prepare DELETE query {[ "owner" := owner ]} NoBody timeout me)).
Proof.
  split.
  - destruct (fetch_then_delete_spec ("repair_run/" +:+ id) timeout st)
      as (Hh & Hf & _ & Hd).
    split; [exact Hh|]. split; [exact Hf|exact Hd].
  - destruct (fetch_then_delete_spec ("repair_schedule/" +:+ id) timeout st)
      as (Hh & Hf & _ & Hd).
    split; [exact Hh|]. split; [exact Hf|exact Hd].
Qed.

(** ** Relations every call respects *)

(** A relation that holds across a transport call of a helper and across
    [login], and composes, holds across every method built from them. *)
Section Respects.
Variable R : State → State → Prop.
Hypothesis R_refl : ∀ st, R st st.
Hypothesis R_trans : ∀ a b c, R a b → R b c → R a c.
Hypothesis R_send : ∀ v u p b t, respects R (session_request ByRequest v u p b t).
Hypothesis R_login : respects R login.
Hypothesis R_update_password : ∀ p, respects R (update_password p).

Lemma respects_ret {A} (a : A) : respects R (ret a).
Proof. intros st. apply R_refl. Qed.

Lemma respects_lift {A} (r : result A) : respects R (lift r).
Proof. intros st. apply R_refl. Qed.

Lemma respects_get_self : respects R get_self.
Proof. intros st. apply R_refl. Qed.

Lemma respects_bind {A B} (m : M A) (k : A → M B) :
  respects R m → (∀ a, respects R (k a)) → respects R (bind m k).
Proof.
  intros Hm Hk st. unfold bind. specialize (Hm st).
  destruct (m st) as [[e|a] st1]; simpl in *; [exact Hm|].
  eapply R_trans; [exact Hm|apply Hk].
Qed.

Lemma respects_void {A} (m : M A) : respects R m → respects R (void m).
Proof. intros Hm. apply respects_bind; [exact Hm|intros; apply respects_ret]. Qed.

Lemma respects_attempt v q p b t : respects R (attempt v q p b t).
Proof.
  unfold attempt. apply respects_bind; [apply respects_get_self|]. intros me.
  apply respects_bind; [apply R_send|]. intros req.
  apply respects_bind; [apply respects_lift|]. intros _. apply respects_ret.
Qed.

Lemma respects_auth_req {A} (func : M A) :
  respects R func → respects R (__auth_req func).
Proof.
  intros Hf st. rewrite auth_req_run. pose proof (Hf st) as H1.
  destruct (func st) as [[e|a] st1]; simpl in *; [|exact H1].
  destruct e; simpl; try exact H1.
  pose proof (R_login st1) as H2. destruct (login st1) as [[e|[]] st2]; simpl in *.
  - eapply R_trans; eassumption.
  - eapply R_trans; [exact H1|]. eapply R_trans; [exact H2|apply Hf].
Qed.

Lemma respects_run_op (op : req_op) : respects R (run_op op).
Proof. rewrite run_op_unfold. apply respects_auth_req, respects_attempt. Qed.

Lemma respects_get q p t : respects R (__get q p t).
Proof. apply (respects_run_op (OpGet q p t)). Qed.

Lemma respects_delete q p t : respects R (__delete q p t).
Proof. apply (respects_run_op (OpDelete q p t)). Qed.

Lemma respects_post q p d t : respects R (__post q p d t).
Proof. apply (respects_run_op (OpPost q p d t)). Qed.

Lemma respects_put q p d t : respects R (__put q p d t).
Proof. apply (respects_run_op (OpPut q p d t)). Qed.

Lemma respects_patch q p j t : respects R (__patch q p j t).
Proof. apply (respects_run_op (OpPatch q p j t)). Qed.

(** A facade method is a helper between binds. *)
Ltac facade :=
  repeat first
    [ apply respects_void
    | apply respects_bind; [|intros ?]
    | apply respects_ret | apply respects_lift
    | apply respects_get | apply respects_delete | apply respects_post
    | apply respects_put | apply respects_patch | apply respects_run_op ].

(** Every call but a password update. *)
Lemma respects_run_call_request (c : call) :
  (∀ p, c ≠ CallUpdatePassword p) → respects R (run_call c).
Proof.
  intros Hc. destruct c; simpl; try (exact R_login);
    try (exfalso; eapply Hc; reflexivity).
  all: try (unfold get_clusters, get_cluster_info, get_cluster_tables, delete_cluster,
         get_repairs, get_repair, pause_repair, change_repair_intensity,
         resume_repair, abort_repair,
         delete_repair, get_repair_segments, abort_repair_segment, get_schedules,
         get_cluster_schedules, disable_schedule, add_schedule, update_schedule,
         delete_schedule, enable_schedule, get_schedule, start_schedule,
         get_cluster_snapshots, get_host_snapshots, create_cluster_snapshot,
         create_host_snapshot, delete_cluster_snapshot, delete_host_snapshot;
       facade).
Qed.

Lemma respects_run_call (c : call) : respects R (run_call c).
Proof.
  destruct c; try (apply respects_run_call_request; discriminate).
  apply R_update_password.
Qed.

Lemma respects_run_calls (cs : list call) (st : State) : R st (run_calls cs st).
Proof.
  revert st. induction cs as [|c cs IH]; intros st; simpl; [apply R_refl|].
  eapply R_trans; [apply respects_run_call|apply IH].
Qed.

End Respects.

(** ** Token and header change only in [login] *)

Lemma session_request_effect o v u p b t (st : State) :
  let st' := snd (session_request o v u p b t st) in
  self st' = self st ∧
  ∃ req res, adds st st' [EvSend o req res] ∧
             req_headers req = __s_headers (self st).
Proof.
  unfold session_request. simpl.
  destruct (transport _ _) as [[f|resp] w]; simpl;
    (split; [reflexivity|]); eexists _, _; split; reflexivity.
Qed.

Lemma unchanged_refl (st : State) : unchanged_unless_login st st.
Proof. exists []. split; [apply adds_refl|auto]. Qed.

Lemma unchanged_trans (a b c : State) :
  unchanged_unless_login a b → unchanged_unless_login b c →
  unchanged_unless_login a c.
Proof.
  intros (n1 & Ha1 & H1) (n2 & Ha2 & H2). exists (n1 ++ n2).
  split; [eapply adds_trans; eassumption|].
  rewrite login_oks_app. intros [Hn1 Hn2]%app_eq_nil.
  destruct (H1 Hn1), (H2 Hn2). split; congruence.
Qed.

Lemma unchanged_send v u p b t :
  respects unchanged_unless_login (session_request ByRequest v u p b t).
Proof.
  intros st. destruct (session_request_effect ByRequest v u p b t st)
    as (Hs & req & res & Ha & _).
  eexists. split; [exact Ha|]. rewrite Hs. auto.
Qed.

Lemma unchanged_login : respects unchanged_unless_login login.
Proof.
  intros st. destruct (login_adds st) as (new & Ha & _ & _ & _ & _ & Hfail & Hok).
  exists new. split; [exact Ha|]. intros Hno.
  destruct (fst (login st)) as [e|[]] eqn:Hr.
  - destruct (Hfail e eq_refl) as [_ ->]. auto.
  - destruct (Hok eq_refl) as (tok & Hoks & _). congruence.
Qed.

Lemma unchanged_update_password p :
  respects unchanged_unless_login (update_password p).
Proof.
  intros st. exists []. split; [|auto]. unfold adds. simpl.
  rewrite app_nil_r. reflexivity.
Qed.

(** C10: across any call of any method, token and headers are as before
    unless a [login] completed during the call.  A verb helper never
    changes the password, URL, user or verify setting, and when no [login]
    completed during its run, whatever it returned or raised, it leaves the
    whole session as it was. *)
Theorem C10_only_login_sets_token :
  (∀ (c : call) (st : State),
     let st' := snd (run_call c st) in
     login_oks (events_since st st') = [] →
     token (self st') = token (self st) ∧
     __s_headers (self st') = __s_headers (self st)) ∧
  (∀ (op : req_op) (st : State),
     let st' := snd (run_op op st) in
     __password (self st') = __password (self st) ∧
     url (self st') = url (self st) ∧
     user (self st') = user (self st) ∧
     __s_verify (self st') = __s_verify (self st) ∧
     (login_oks (events_since st st') = [] → self st' = self st)).
Proof.
  split.
  - intros c st st' Hno.
    destruct (respects_run_call unchanged_unless_login unchanged_refl unchanged_trans
                unchanged_send unchanged_login unchanged_update_password c st)
      as (new & Ha & H).
    apply H. rewrite <- (adds_events_since _ _ _ Ha). exact Hno.
  - intros op st.
    destruct (run_op_effect op st) as
      [(res & Ha & Hs & _)|[(r1 & new & e & Ha & _ & Hs & _)
                           |(r1 & new & tok & res2 & Ha & _ & Hs & _ & _ & Hoks & _)]];
      simpl in *; rewrite Hs; repeat split; auto.
    rewrite (adds_events_since _ _ _ Ha). intros Hno. exfalso.
    simpl in Hno. rewrite login_oks_app, Hoks in Hno. discriminate.
Qed.

(** ** The bearer header *)

Lemma tokened_new (u usr pw : string) (verify_ssl : bool) (w : World) :
  tokened {| self := new_session u usr pw verify_ssl; world := w; trace := [] |}.
Proof. repeat split. Qed.

Lemma keeps_tokened_refl (st : State) : keeps_tokened st st.
Proof. intros H. exact H. Qed.

Lemma keeps_tokened_trans (a b c : State) :
  keeps_tokened a b → keeps_tokened b c → keeps_tokened a c.
Proof. unfold keeps_tokened. auto. Qed.

(** A further request with the session's headers keeps the agreement. *)
Lemma tokened_sent o req res w (st : State) :
  req_headers req = __s_headers (self st) →
  tokened st → tokened (sent o req res w st).
Proof.
  intros Hh (Hok & Hhd & Htok). unfold tokened. simpl.
  rewrite bearer_ok_app, last_token_app, Hok. simpl.
  rewrite Hh, Hhd, bool_decide_eq_true_2 by reflexivity. auto.
Qed.

Lemma tokened_logged_login (st : State) : tokened st → tokened (logged EvLogin st).
Proof.
  intros (Hok & Hhd & Htok). unfold tokened. simpl.
  rewrite bearer_ok_app, last_token_app, Hok. simpl. auto.
Qed.

Lemma keeps_tokened_send v u p b t :
  respects keeps_tokened (session_request ByRequest v u p b t).
Proof.
  intros st Hst. unfold session_request.
  destruct (transport _ _) as [[f|resp] w]; simpl;
    apply (tokened_sent ByRequest _ _ w st); auto.
Qed.

Lemma authenticated_header (tok : string) (me : Session) :
  __s_headers (authenticated tok me) !! "Authorization" = Some ("Bearer " +:+ tok) ∧
  token (authenticated tok me) = tok.
Proof.
  split; [|reflexivity]. simpl.
  apply lookup_union_Some_l, lookup_singleton_eq.
Qed.

Lemma keeps_tokened_login : respects keeps_tokened login.
Proof.
  intros st Hst. rewrite login_run. cbv zeta.
  set (st0 := logged EvLogin st).
  assert (H0 : tokened st0) by (apply tokened_logged_login, Hst).
  destruct (transport _ _) as [[f|login_req] w1]; simpl.
  { apply (tokened_sent ByLogin _ _ w1 st0); auto. }
  set (st1 := sent ByLogin (login_post (self st)) (inr login_req) w1 st0).
  assert (H1 : tokened st1) by (apply (tokened_sent ByLogin _ _ w1 st0); auto).
  destruct (__check_req login_req) as [e|[]]; simpl; [exact H1|].
  destruct (transport _ _) as [[f|jwt_req] w2]; simpl.
  { apply (tokened_sent ByLogin _ _ w2 st1); auto. }
  set (st2 := sent ByLogin (login_get (self st)) (inr jwt_req) w2 st1).
  assert (H2 : tokened st2) by (apply (tokened_sent ByLogin _ _ w2 st1); auto).
  destruct (__check_req jwt_req) as [e|[]]; simpl; [exact H2|].
  destruct H2 as (Hok & _ & _). unfold tokened. simpl in *.
  rewrite bearer_ok_app, !(last_token_app _ _ [EvLoginOk _]), Hok. simpl.
  destruct (authenticated_header (text jwt_req) (self st)) as [Hh Ht].
  simpl in Hh. auto.
Qed.

Lemma keeps_tokened_update_password p :
  respects keeps_tokened (update_password p).
Proof. intros st H. exact H. Qed.

(** C4, as the code has it.  From the construction of the object on,
    through any sequence of calls, every request handed to the transport
    carries [Authorization: Bearer tok] for the token [tok] of the login
    that completed last before it, and no Authorization header if none
    has; the session holds that token and header.  A login that completes
    stores the text of the [/jwt] response as the token, whatever that
    text is. *)
Theorem C4_bearer_attached :
  (∀ (u usr pw : string) (verify_ssl do_login : bool) (w : World) (cs : list call),
     let st := run_calls cs (snd (__init__ u usr pw verify_ssl do_login w)) in
     bearer_ok None (trace st) = true ∧
     __s_headers (self st) !! "Authorization" = bearer (last_token None (trace st)) ∧
     token (self st) = default "" (last_token None (trace st))) ∧
  (∀ (st : State),
     fst (login st) = inr tt →
     ∃ login_req jwt_req,
       events_since st (snd (login st)) =
         [EvLogin; EvSend ByLogin (login_post (self st)) (inr login_req);
          EvSend ByLogin (login_get (self st)) (inr jwt_req);
          EvLoginOk (text jwt_req)] ∧
       token (self (snd (login st))) = text jwt_req ∧
       __s_headers (self (snd (login st))) !! "Authorization" =
         Some ("Bearer " +:+ text jwt_req)) ∧
  (∀ (st : State) (e : exn),
     fst (login st) = inl e →
     login_oks (events_since st (snd (login st))) = [] ∧
     self (snd (login st)) = self st).
Proof.
  split; [|split].
  - intros u usr pw verify_ssl do_login w cs st.
    apply (respects_run_calls keeps_tokened keeps_tokened_refl keeps_tokened_trans
             keeps_tokened_send keeps_tokened_login keeps_tokened_update_password).
    unfold __init__. destruct do_login; simpl.
    + apply keeps_tokened_login, tokened_new.
    + apply tokened_new.
  - intros st Hr.
    destruct (login_effect st) as
      [(e & res1 & Hr' & _)|[(e & r1 & res2 & Hr' & _)|(r1 & jwt & _ & Hs & Ha & _)]];
      try congruence.
    exists r1, jwt. rewrite (adds_events_since _ _ _ Ha), Hs.
    split; [reflexivity|]. destruct (authenticated_header (text jwt) (self st)).
    auto.
  - intros st e Hr.
    destruct (login_adds st) as (new & Ha & _ & _ & _ & _ & Hfail & _).
    rewrite (adds_events_since _ _ _ Ha). eauto.
Qed.

End Proofs.

(** * Further properties of the request layer *)

Section More.
Context `{E : HttpEnv}.

(** What a helper makes of the transport's answer to one try. *)
Lemma outcome_not_auth (res : Fault + Response) :
  (∀ r, res = inr r → classify r ≠ AuthExpired) →
  ∀ msg, match res with
         | inl f => inl (TransportError f)
         | inr r => match __check_req r with
                    | inl e => inl e
                    | inr _ => inr r
                    end
         end ≠ (inl (AuthError msg) : result Response).
Proof.
  intros Hna msg. destruct res as [f|r]; [discriminate|].
  destruct (__check_req r) as [e|[]] eqn:Hc; [|discriminate].
  intros [= ->]. apply (Hna r eq_refl). apply classify_AuthExpired. eauto.
Qed.

(** A first try that does not raise [AuthError] is the whole call. *)
Lemma first_try_run (op : req_op) (st : State) (res : Fault + Response)
    (w1 : World) :
  let req1 := op_request op (self st) in
  let st1 := sent ByRequest req1 res w1 st in
  transport (world st) req1 = (res, w1) →
  (∀ r, res = inr r → classify r ≠ AuthExpired) →
  run_op op st =
    (match res with
     | inl f => inl (TransportError f)
     | inr r => match __check_req r with
                | inl e => inl e
                | inr _ => inr r
                end
     end, st1) ∧
  sends (events_since st st1) = [req1] ∧
  count_logins (events_since st st1) = 0%nat ∧
  self st1 = self st.
Proof.
  intros req1 st1 Ht Hna.
  assert (Ha : adds st st1 [EvSend ByRequest req1 res]) by apply adds_sent.
  rewrite !(adds_events_since _ _ _ Ha). simpl. repeat split.
  rewrite run_op_unfold, auth_req_run. unfold op_attempt.
  rewrite attempt_run. fold (op_request op (self st)). fold req1.
  cbv zeta. rewrite Ht. fold st1.
  pose proof (outcome_not_auth res Hna) as Hout.
  destruct res as [f|r]; [reflexivity|].
  destruct (__check_req r) as [e|[]]; [|reflexivity].
  destruct e; try reflexivity. exfalso. eapply Hout. reflexivity.
Qed.

(** X1: when the transport's first answer is anything but a response
    classified AuthExpired (an accepted response, a response refused with
    [HTTPError], or a fault), the helper settles with exactly that outcome:
    one transport call, no [login], the session as it was. *)
Theorem X1_first_try_settles (op : req_op) (st : State) (res : Fault + Response)
    (w1 : World) :
  let req1 := op_request op (self st) in
  let st1 := sent ByRequest req1 res w1 st in
  transport (world st) req1 = (res, w1) →
  (∀ r, res = inr r → classify r ≠ AuthExpired) →
  run_op op st =
    (match res with
     | inl f => inl (TransportError f)
     | inr r => match __check_req r with
                | inl e => inl e
                | inr _ => inr r
                end
     end, st1) ∧
  sends (events_since st st1) = [req1] ∧
  count_logins (events_since st st1) = 0%nat ∧
  self st1 = self st.
Proof. apply first_try_run. Qed.

(** X2: when the first response is classified AuthExpired and [login]
    fails, the helper raises the exception of [login] and does not send its
    request again; the session is as it was. *)
Theorem X2_failed_relogin (op : req_op) (st st2 : State) (r1 : Response)
    (w1 : World) (e : exn) :
  let req1 := op_request op (self st) in
  let st1 := sent ByRequest req1 (inr r1) w1 st in
  transport (world st) req1 = (inr r1, w1) →
  classify r1 = AuthExpired →
  login st1 = (inl e, st2) →
  run_op op st = (inl e, st2) ∧
  request_sends (events_since st st2) = [req1] ∧
  count_logins (events_since st st2) = 1%nat ∧
  self st2 = self st.
Proof.
  intros req1 st1 Ht Hc Hl.
  apply classify_AuthExpired in Hc as [msg Hc].
  destruct (login_adds st1) as (new & Ha & Hn & Hq & _ & _ & Hfail & _).
  rewrite Hl in Ha, Hfail. simpl in Ha, Hfail.
  destruct (Hfail e eq_refl) as [_ Hself].
  pose proof (adds_trans st st1 st2 [_] new (adds_sent _ _ _ _ _) Ha) as Hall.
  rewrite !(adds_events_since _ _ _ Hall). simpl. rewrite Hq, Hn.
  repeat split; auto.
  rewrite run_op_unfold, auth_req_run. unfold op_attempt.
  rewrite attempt_run. fold (op_request op (self st)). fold req1.
  cbv zeta. rewrite Ht, Hc. fold st1. rewrite Hl. reflexivity.
Qed.

(** The session [login] leaves when it completes. *)
Lemma login_completes (st st2 : State) :
  login st = (inr tt, st2) →
  ∃ tok new, self st2 = authenticated tok (self st) ∧ adds st st2 new ∧
             count_logins new = 1%nat ∧ request_sends new = [].
Proof.
  intros Hl. destruct (login_adds st) as (new & Ha & Hn & Hq & _ & _ & _ & Hok).
  rewrite Hl in Ha, Hok. simpl in Ha, Hok.
  destruct (Hok eq_refl) as (tok & _ & Hs). eauto 10.
Qed.

Lemma authenticated_headers (tok : string) (me : Session) :
  __s_headers (authenticated tok me) =
  <["Authorization" := "Bearer " +:+ tok]> (__s_headers me).
Proof. simpl. symmetry. apply insert_union_singleton_l. Qed.

(** X3: the request of the second try is the request of the first with
    the Authorization header replaced by the bearer header of the token
    just read: same verb, URL, parameters, body, timeout and verify
    setting.  Whatever the second try yields, the session keeps the new
    token. *)
Theorem X3_resend_same_request (op : req_op) (st st2 : State) (r1 : Response)
    (w1 : World) :
  let req1 := op_request op (self st) in
  let st1 := sent ByRequest req1 (inr r1) w1 st in
  let req2 := op_request op (self st2) in
  transport (world st) req1 = (inr r1, w1) →
  classify r1 = AuthExpired →
  login st1 = (inr tt, st2) →
  req_verb req2 = req_verb req1 ∧ req_url req2 = req_url req1 ∧
  req_params req2 = req_params req1 ∧ req_body req2 = req_body req1 ∧
  req_timeout req2 = req_timeout req1 ∧ req_verify req2 = req_verify req1 ∧
  req_headers req2 =
    <["Authorization" := "Bearer " +:+ token (self st2)]> (req_headers req1) ∧
  request_sends (events_since st (snd (run_op op st))) = [req1; req2] ∧
  self (snd (run_op op st)) = self st2.
Proof.
  intros req1 st1 req2 Ht Hc Hl.
  destruct (login_completes st1 st2 Hl) as (tok & new & Hs & Ha & Hn & Hq).
  simpl in Hs. subst req1 req2. unfold op_request, prepare. rewrite Hs. simpl.
  repeat split; [symmetry; apply insert_union_singleton_l| |].
  - destruct (transport (world st2) (op_request op (self st2))) as [res2 w3] eqn:Ht2.
    apply classify_AuthExpired in Hc as [msg Hc].
    assert (Hrun : snd (run_op op st) =
                   sent ByRequest (op_request op (self st2)) res2 w3 st2).
    { rewrite run_op_unfold, auth_req_run. unfold op_attempt.
      rewrite attempt_run. fold (op_request op (self st)).
      cbv zeta. rewrite Ht, Hc. fold st1. rewrite Hl.
      rewrite attempt_run. fold (op_request op (self st2)).
      cbv zeta. rewrite Ht2. destruct res2 as [f|r2]; [reflexivity|].
      destruct (__check_req r2) as [e|[]]; reflexivity. }
    rewrite Hrun.
    pose proof (adds_trans st st1 _ [_] (new ++ [_]) (adds_sent _ _ _ _ _)
                  (adds_trans st1 st2 _ new [_] Ha
                     (adds_sent ByRequest (op_request op (self st2)) res2 w3 st2)))
      as Hall.
    rewrite (adds_events_since _ _ _ Hall). simpl.
    rewrite request_sends_app, Hq. unfold op_request, prepare. rewrite Hs.
    reflexivity.
  - destruct (transport (world st2) (op_request op (self st2))) as [res2 w3] eqn:Ht2.
    apply classify_AuthExpired in Hc as [msg Hc].
    rewrite run_op_unfold, auth_req_run. unfold op_attempt.
    rewrite attempt_run. fold (op_request op (self st)).
    cbv zeta. rewrite Ht, Hc. fold st1. rewrite Hl.
    rewrite attempt_run. fold (op_request op (self st2)).
    cbv zeta. rewrite Ht2. destruct res2 as [f|r2]; [exact Hs|].
    destruct (__check_req r2) as [e|[]]; exact Hs.
Qed.

(** X4: a fault of the transport on the second try is raised as it is, as
    a transport error; the helper does not log in or send again. *)
Theorem X4_second_try_fault (op : req_op) (st st2 : State) (r1 : Response)
    (w1 w3 : World) (f : Fault) :
  let req1 := op_request op (self st) in
  let st1 := sent ByRequest req1 (inr r1) w1 st in
  let req2 := op_request op (self st2) in
  let st3 := sent ByRequest req2 (inl f) w3 st2 in
  transport (world st) req1 = (inr r1, w1) →
  classify r1 = AuthExpired →
  login st1 = (inr tt, st2) →
  transport (world st2) req2 = (inl f, w3) →
  run_op op st = (inl (TransportError f), st3) ∧
  count_logins (events_since st st3) = 1%nat ∧
  length (request_sends (events_since st st3)) = 2%nat.
Proof.
  intros req1 st1 req2 st3 Ht Hc Hl Ht2.
  destruct (login_completes st1 st2 Hl) as (tok & new & _ & Ha & Hn & Hq).
  apply classify_AuthExpired in Hc as [msg Hc].
  pose proof (adds_trans st st1 _ [_] (new ++ [_]) (adds_sent _ _ _ _ _)
                (adds_trans st1 st2 _ new [_] Ha
                   (adds_sent ByRequest req2 (inl f) w3 st2))) as Hall.
  fold st3 in Hall. rewrite !(adds_events_since _ _ _ Hall). simpl.
  rewrite count_logins_app, request_sends_app, Hn, Hq. simpl.
  repeat split.
  rewrite run_op_unfold, auth_req_run. unfold op_attempt.
  rewrite attempt_run. fold (op_request op (self st)). fold req1.
  cbv zeta. rewrite Ht, Hc. fold st1. rewrite Hl.
  rewrite attempt_run. fold (op_request op (self st2)). fold req2.
  cbv zeta. rewrite Ht2. reflexivity.
Qed.

Lemma sends_length (tr : list event) :
  length (sends tr) = (length (request_sends tr) + length (login_sends tr))%nat.
Proof.
  induction tr as [|[|[]|] tr IH]; simpl; rewrite ?IH; lia.
Qed.

(** X5: a call of a verb helper hands between one and four requests to
    the transport (its own request once or twice, the two of [login] at
    most once), and a call of [login] one or two. *)
Theorem X5_transport_calls_bounded :
  (∀ (op : req_op) (st : State),
     (1 <= length (sends (events_since st (snd (run_op op st)))) <= 4)%nat) ∧
  (∀ (st : State),
     (1 <= length (sends (events_since st (snd (login st)))) <= 2)%nat).
Proof.
  assert (Hlogin : ∀ st : State,
            (1 <= length (sends (events_since st (snd (login st)))) <= 2)%nat).
  { intros st.
    destruct (login_effect st) as
      [(e & res1 & _ & _ & Ha & _)|[(e & r1 & res2 & _ & _ & Ha & _)
                                   |(r1 & jwt & _ & _ & Ha & _)]];
      simpl in Ha; rewrite (adds_events_since _ _ _ Ha); simpl; lia. }
  split; [|exact Hlogin]. intros op st.
  rewrite run_op_unfold, auth_req_run.
  destruct (attempt_effect (op_verb op) (op_query op) (op_params op) (op_body op)
              (op_timeout op) st) as [_ [res Ha1]].
  fold (op_attempt op) in Ha1. simpl in Ha1.
  destruct (op_attempt op st) as [[e|a] st1] eqn:H1; simpl in Ha1;
    [|simpl; rewrite (adds_events_since _ _ _ Ha1); simpl; lia].
  destruct e; simpl; try (rewrite (adds_events_since _ _ _ Ha1); simpl; lia).
  specialize (Hlogin st1).
  destruct (login_adds st1) as (new & Ha2 & _).
  rewrite (adds_events_since _ _ _ Ha2) in Hlogin.
  destruct (login st1) as [[e|[]] st2] eqn:H2; simpl in Ha2.
  - simpl. rewrite (adds_events_since _ _ _ (adds_trans _ _ _ _ _ Ha1 Ha2)).
    simpl. lia.
  - destruct (attempt_effect (op_verb op) (op_query op) (op_params op) (op_body op)
                (op_timeout op) st2) as [_ [res3 Ha3]].
    fold (op_attempt op) in Ha3. simpl in Ha3.
    rewrite (adds_events_since _ _ _
               (adds_trans _ _ _ _ _ Ha1 (adds_trans _ _ _ _ _ Ha2 Ha3))).
    simpl. rewrite sends_app. simpl. rewrite length_app. simpl. lia.
Qed.

(** The first request of [login]: a POST of the credentials as a form, to
    the login URL, with no query parameters and no timeout. *)
Lemma login_first_request (st : State) :
  ∃ res rest,
    events_since st (snd (login st)) =
    EvLogin :: EvSend ByLogin (login_post (self st)) res :: rest.
Proof.
  destruct (login_effect st) as
    [(e & res1 & _ & _ & Ha & _)|[(e & r1 & res2 & _ & _ & Ha & _)
                                 |(r1 & jwt & _ & _ & Ha & _)]];
    simpl in Ha; rewrite (adds_events_since _ _ _ Ha); eauto.
Qed.

(** X6: [login] sends the password stored last.  After
    [update_password p], the first request of the next [login] is a POST
    to the login URL whose form carries the user name, [p] and
    [rememberMe = False], with no query parameters and no timeout, under
    the headers the session had. *)
Theorem X6_login_after_update_password (p : string) (st : State) :
  let st' := snd (update_password p st) in
  ∃ res rest,
    events_since st' (snd (login st')) =
    EvLogin ::
    EvSend ByLogin
      {| req_verb := POST;
         req_url := urljoin (url (self st)) "login";
         req_params := ∅;
         req_body := FormBody {[ "username" := PStr (user (self st));
                                 "password" := PStr p;
                                 "rememberMe" := PBool false ]};
         req_timeout := PNone;
         req_headers := __s_headers (self st);
         req_verify := __s_verify (self st) |} res :: rest.
Proof. intros st'. apply (login_first_request st'). Qed.

(** X7: when the POST to [/login] is accepted and the GET to [/jwt] is
    not (the transport faults, or the validator refuses the response),
    [login] raises that failure after exactly these two requests, and the
    session keeps the token and headers it had. *)
Theorem X7_jwt_failure (st : State) (r1 : Response) (w1 w2 : World)
    (res2 : Fault + Response) :
  transport (world st) (login_post (self st)) = (inr r1, w1) →
  classify r1 = Ok →
  transport w1 (login_get (self st)) = (res2, w2) →
  (∀ r, res2 = inr r → classify r ≠ Ok) →
  (∃ e, fst (login st) = inl e ∧
        match res2 with
        | inl f => e = TransportError f
        | inr r => __check_req r = inl e
        end) ∧
  sends (events_since st (snd (login st))) = [login_post (self st); login_get (self st)] ∧
  login_oks (events_since st (snd (login st))) = [] ∧
  self (snd (login st)) = self st.
Proof.
  intros Ht1 Hc1 Ht2 Hbad. apply classify_Ok in Hc1.
  rewrite login_run. cbv zeta. rewrite Ht1, Hc1, Ht2.
  assert (Hev : ∀ (x : result unit) w,
            events_since st (x, sent ByLogin (login_get (self st)) res2 w
                                  (sent ByLogin (login_post (self st)) (inr r1) w1
                                     (logged EvLogin st))).2 =
            [EvLogin; EvSend ByLogin (login_post (self st)) (inr r1);
             EvSend ByLogin (login_get (self st)) res2]).
  { intros x w. apply adds_events_since. unfold adds. simpl.
    rewrite <- !app_assoc. reflexivity. }
  destruct res2 as [f|r2].
  - rewrite !Hev. simpl. repeat split. eauto.
  - destruct (__check_req r2) as [e|[]] eqn:Hc2.
    + rewrite !Hev. simpl. repeat split. eauto.
    + exfalso. apply (Hbad r2 eq_refl). apply classify_Ok. exact Hc2.
Qed.

(** X8: a [login] that completes changes the token and the Authorization
    header and nothing else: every other header, the URL, the user, the
    password and the verify setting are as before, and both of its
    requests went out under the headers the session had before. *)
Theorem X8_login_frame (st : State) :
  fst (login st) = inr tt →
  let me' := self (snd (login st)) in
  (∀ k, k ≠ "Authorization" → __s_headers me' !! k = __s_headers (self st) !! k) ∧
  __s_headers me' !! "Authorization" = Some ("Bearer " +:+ token me') ∧
  url me' = url (self st) ∧ user me' = user (self st) ∧
  __password me' = __password (self st) ∧ __s_verify me' = __s_verify (self st) ∧
  (∀ req, req ∈ sends (events_since st (snd (login st))) →
          req_headers req = __s_headers (self st)).
Proof.
  intros Hr.
  destruct (login_effect st) as
    [(e & res1 & Hr' & _)|[(e & r1 & res2 & Hr' & _)|(r1 & jwt & _ & Hs & Ha & _)]];
    try congruence.
  simpl in *. rewrite (adds_events_since _ _ _ Ha), Hs.
  rewrite authenticated_headers. simpl. repeat split.
  - intros k Hk. apply lookup_insert_ne. congruence.
  - apply lookup_insert_eq.
  - intros req. rewrite !elem_of_cons, elem_of_nil. intros [->|[->|[]]]; reflexivity.
Qed.

(** ** What no call changes *)

Lemma same_credentials_refl (st : State) : same_credentials st st.
Proof. repeat split. Qed.

Lemma same_credentials_trans (a b c : State) :
  same_credentials a b → same_credentials b c → same_credentials a c.
Proof.
  intros (H1 & H2 & H3 & H4) (H5 & H6 & H7 & H8). repeat split; congruence.
Qed.

Lemma same_credentials_send v u p b t :
  respects same_credentials (session_request ByRequest v u p b t).
Proof.
  intros st. destruct (session_request_effect ByRequest v u p b t st) as [Hs _].
  simpl in Hs. unfold same_credentials. rewrite Hs. repeat split.
Qed.

Lemma same_credentials_login : respects same_credentials login.
Proof.
  intros st. destruct (login_adds st) as (new & _ & _ & _ & _ & _ & Hfail & Hok).
  unfold same_credentials. destruct (fst (login st)) as [e|[]].
  - destruct (Hfail e eq_refl) as [_ ->]. repeat split.
  - destruct (Hok eq_refl) as (tok & _ & ->). repeat split.
Qed.

(** X9: through any sequence of calls, whatever each returns or raises,
    the session keeps its URL, user and verify setting, and its password
    is the argument of the last [update_password] among the calls, or the
    one it had if there is none. *)
Theorem X9_credentials_across_calls (cs : list call) (st : State) :
  let st' := run_calls cs st in
  url (self st') = url (self st) ∧ user (self st') = user (self st) ∧
  __s_verify (self st') = __s_verify (self st) ∧
  __password (self st') = last_password (__password (self st)) cs.
Proof.
  revert st. induction cs as [|c cs IH]; intros st; [repeat split|].
  simpl. destruct (IH (snd (run_call c st))) as (H1 & H2 & H3 & H4).
  unfold last_password in *. simpl. rewrite H1, H2, H3, H4.
  assert (Hother : (∀ p, c ≠ CallUpdatePassword p) →
                   same_credentials st (snd (run_call c st))).
  { intros Hc. apply (respects_run_call_request same_credentials
                        same_credentials_refl same_credentials_trans
                        same_credentials_send same_credentials_login c Hc). }
  destruct c; try (destruct Hother as (-> & -> & -> & ->);
                   [discriminate|repeat split]).
  simpl. repeat split.
Qed.










(** ** The facade methods *)

Lemma same_credentials_run_op (op : req_op) (st : State) :
  same_credentials st (snd (run_op op st)).
Proof.
  apply (respects_run_op same_credentials same_credentials_refl
           same_credentials_trans same_credentials_send same_credentials_login).
Qed.

(** Every request of a helper, the second try included: the arguments of
    the call, the URL joined onto the URL of the session, its verify
    setting. *)
Lemma run_op_request_exact (op : req_op) (st : State) (req : Request) :
  req ∈ request_sends (events_since st (snd (run_op op st))) →
  req_verb req = op_verb op ∧
  req_url req = urljoin (url (self st)) (op_query op) ∧
  req_params req = op_params op ∧ req_body req = op_body op ∧
  req_timeout req = op_timeout op ∧ req_verify req = __s_verify (self st).
Proof.
  destruct (same_credentials_run_op op st) as (Hu & _ & Hv & _).
  destruct (run_op_requests op st) as [-> | ->];
    rewrite ?elem_of_cons, elem_of_nil; intros H; decompose [or] H; subst;
    try contradiction; unfold op_request, prepare; simpl;
    rewrite ?Hu, ?Hv; repeat split.
Qed.

Lemma getitem_error (resource : pyval) (k : string) (e : exn) :
  getitem resource k = inl e →
  match resource with
  | PDict d => d !! k = None ∧ e = KeyError k
  | _ => e = TypeError
  end.
Proof.
  destruct resource; simpl; try (intros [= <-]; reflexivity).
  destruct (d !! k); [discriminate|]. intros [= <-]. auto.
Qed.

(** X11: when the resource read by [delete_repair] or [delete_schedule]
    has no owner to give, the method raises and no DELETE is sent:
    [KeyError] for a JSON object without the key [owner], [TypeError] for
    any other JSON value. *)
Theorem X11_delete_without_owner (id : string) (timeout : pyval) (st : State)
    (resource : pyval) (e : exn) :
  getitem resource "owner" = inl e →
  match resource with
  | PDict d => d !! "owner" = None ∧ e = KeyError "owner"
  | _ => e = TypeError
  end ∧
  (fst (get_repair id (PInt 10) st) = inr resource →
   delete_repair id timeout st = (inl e, snd (get_repair id (PInt 10) st)) ∧
   ∀ req, req ∈ sends (events_since st (snd (delete_repair id timeout st))) →
          req_verb req ≠ DELETE) ∧
  (fst (get_schedule id (PInt 10) st) = inr resource →
   delete_schedule id timeout st = (inl e, snd (get_schedule id (PInt 10) st)) ∧
   ∀ req, req ∈ sends (events_since st (snd (delete_schedule id timeout st))) →
          req_verb req ≠ DELETE).
Proof.
  intros Hg. split; [apply getitem_error, Hg|]. split; intros Hf.
  - destruct (fetch_then_delete_spec ("repair_run/" +:+ id) timeout st)
      as (_ & _ & Hk & _). apply (Hk resource e Hf Hg).
  - destruct (fetch_then_delete_spec ("repair_schedule/" +:+ id) timeout st)
      as (_ & _ & Hk & _). apply (Hk resource e Hf Hg).
Qed.

Lemma truthy_str (s : string) : s ≠ "" → truthy (PStr s) = true.
Proof.
  intros Hs. simpl. apply negb_true_iff, String.eqb_neq. exact Hs.
Qed.

Lemma truthy_pystrs (l : list string) : l ≠ [] → truthy (pystrs l) = true.
Proof. destruct l; [congruence|reflexivity]. Qed.

Lemma truthy_int (z : Z) : z ≠ 0 → truthy (PInt z) = true.
Proof. intros Hz. simpl. apply negb_true_iff, Z.eqb_neq. exact Hz. Qed.

Lemma truthy_float (f : spec_float) : (∀ s, f ≠ S754_zero s) → truthy (PFloat f) = true.
Proof. intros Hf. destruct f; try reflexivity. exfalso. eapply Hf. reflexivity. Qed.

(** A conditional entry whose test holds shows at its key. *)
Lemma insert_if_true (b : bool) (k : string) (v : pyval) (m : gmap string pyval) :
  b = true → (if b then <[k:=v]> m else m) !! k = Some v.
Proof. intros ->. apply lookup_insert_eq. Qed.

(** X12: [get_repairs] and [get_schedules] send a GET to their collection
    with their timeout; a filter that is not empty is sent under its key,
    the states joined by commas, and no other query parameter is sent. *)
Theorem X12_filters_sent (st : State) (timeout : pyval) (req : Request) :
  (∀ cluster states,
     req ∈ request_sends (events_since st (snd (get_repairs cluster states timeout st))) →
     req_verb req = GET ∧ req_url req = urljoin (url (self st)) "repair_run" ∧
     req_timeout req = timeout ∧
     (cluster ≠ "" → req_params req !! "cluster_name" = Some (PStr cluster)) ∧
     (states ≠ [] → req_params req !! "state" = Some (PStr (str_join "," states))) ∧
     (∀ k, k ≠ "cluster_name" → k ≠ "state" → req_params req !! k = None)) ∧
  (∀ cluster keyspace,
     req ∈ request_sends (events_since st (snd (get_schedules cluster keyspace timeout st))) →
     req_verb req = GET ∧ req_url req = urljoin (url (self st)) "repair_schedule" ∧
     req_timeout req = timeout ∧
     (cluster ≠ "" → req_params req !! "clusterName" = Some (PStr cluster)) ∧
     (keyspace ≠ "" → req_params req !! "keyspace" = Some (PStr keyspace)) ∧
     (∀ k, k ≠ "clusterName" → k ≠ "keyspace" → req_params req !! k = None)).
Proof.
  split.
  - intros cluster states. unfold get_repairs. rewrite snd_bind_lift.
    intros (Hv & Hu & Hp & _ & Ht & _)%(run_op_request_exact (OpGet _ _ _)).
    simpl in *. rewrite Hp. repeat split; auto.
    + intros Hc. unfold get_repairs_params. cbv zeta.
      rewrite insert_if_lookup by discriminate.
      apply insert_if_true, truthy_str, Hc.
    + intros Hs. unfold get_repairs_params. cbv zeta.
      apply insert_if_true, truthy_pystrs, Hs.
    + intros k H1 H2. unfold get_repairs_params. cbv zeta.
      rewrite !insert_if_lookup by congruence. apply lookup_empty.
  - intros cluster keyspace. unfold get_schedules. rewrite snd_bind_lift.
    intros (Hv & Hu & Hp & _ & Ht & _)%(run_op_request_exact (OpGet _ _ _)).
    simpl in *. rewrite Hp. repeat split; auto.
    + intros Hc. unfold get_schedules_params. cbv zeta.
      rewrite insert_if_lookup by discriminate.
      apply insert_if_true, truthy_str, Hc.
    + intros Hs. unfold get_schedules_params. cbv zeta.
      apply insert_if_true, truthy_str, Hs.
    + intros k H1 H2. unfold get_schedules_params. cbv zeta.
      rewrite !insert_if_lookup by congruence. apply lookup_empty.
Qed.

Ltac skip_other_keys := cbv zeta; rewrite ?insert_if_lookup by discriminate.

(** The query parameters of [add_schedule]: the ten it always sends, and
    each optional one when its argument is not empty, zero or 0.0. *)
Lemma add_schedule_params_sent (cluster keyspace owner : string)
    (schedule_days_between segment_count_per_node : Z) (intensity : spec_float)
    (repair_parallelism : string) (repair_thread_count : Z) (nodes : list string)
    (schedule_trigger_time : string) (datacenters tables blacklisted_tables : list string)
    (incremental_repair adaptive : bool) (percent_unrepaired_threshold : Z) :
  let params := add_schedule_params cluster keyspace owner schedule_days_between
                  segment_count_per_node intensity repair_parallelism
                  repair_thread_count nodes schedule_trigger_time datacenters tables
                  blacklisted_tables incremental_repair adaptive
                  percent_unrepaired_threshold in
  (params !! "clusterName" = Some (PStr cluster) ∧
   params !! "keyspace" = Some (PStr keyspace) ∧
   params !! "owner" = Some (PStr owner) ∧
   params !! "scheduleDaysBetween" = Some (PInt schedule_days_between) ∧
   params !! "repairParallelism" = Some (PStr repair_parallelism) ∧
   params !! "incrementalRepair" = Some (PBool incremental_repair) ∧
   params !! "scheduleTriggerTime" = Some (PStr schedule_trigger_time) ∧
   params !! "repairThreadCount" = Some (PInt repair_thread_count) ∧
   params !! "adaptive" = Some (PBool adaptive) ∧
   params !! "percentUnrepairedThreshold" = Some (PInt percent_unrepaired_threshold)) ∧
  (tables ≠ [] → params !! "tables" = Some (pystrs tables)) ∧
  (segment_count_per_node ≠ 0 →
   params !! "segmentCountPerNode" = Some (PInt segment_count_per_node)) ∧
  ((∀ s, intensity ≠ S754_zero s) → params !! "intensity" = Some (PFloat intensity)) ∧
  (∀ s, intensity = S754_zero s → params !! "intensity" = None) ∧
  (nodes ≠ [] → params !! "nodes" = Some (pystrs nodes)) ∧
  (datacenters ≠ [] → params !! "datacenters" = Some (pystrs datacenters)) ∧
  (blacklisted_tables ≠ [] →
   params !! "blacklistedTables" = Some (pystrs blacklisted_tables)).
Proof.
  unfold add_schedule_params.
  split; [repeat split; skip_other_keys; vm_compute; reflexivity|].
  repeat split.
  - intros H. skip_other_keys. apply insert_if_true, truthy_pystrs, H.
  - intros H. skip_other_keys. apply insert_if_true, truthy_int, H.
  - intros H. skip_other_keys. apply insert_if_true, truthy_float, H.
  - intros s ->. skip_other_keys.
    change (truthy (PFloat (S754_zero s))) with false. cbv iota.
    skip_other_keys. reflexivity.
  - intros H. skip_other_keys. apply insert_if_true, truthy_pystrs, H.
  - intros H. skip_other_keys. apply insert_if_true, truthy_pystrs, H.
  - intros H. skip_other_keys. apply insert_if_true, truthy_pystrs, H.
Qed.

(** X13: every request of [add_schedule] is a POST to [repair_schedule]
    with an empty form, whose query parameters always hold the ten
    required entries, the Boolean flags also when they are False.  An
    optional entry is sent when its argument is not empty or zero, lists
    as lists; an intensity of 0.0 or -0.0 is left out. *)
Theorem X13_add_schedule_request (st : State) (cluster keyspace owner : string)
    (schedule_days_between segment_count_per_node : Z) (intensity : spec_float)
    (repair_parallelism : string) (repair_thread_count : Z) (nodes : list string)
    (schedule_trigger_time : string) (datacenters tables blacklisted_tables : list string)
    (incremental_repair adaptive : bool) (percent_unrepaired_threshold : Z)
    (timeout : pyval) (req : Request) :
  req ∈ request_sends (events_since st (snd (add_schedule cluster keyspace owner schedule_days_between
                  segment_count_per_node intensity repair_parallelism
                  repair_thread_count nodes schedule_trigger_time datacenters tables
                  blacklisted_tables incremental_repair adaptive
                  percent_unrepaired_threshold timeout st))) →
  req_verb req = POST ∧ req_url req = urljoin (url (self st)) "repair_schedule" ∧
  req_body req = FormBody ∅ ∧
  (req_params req !! "clusterName" = Some (PStr cluster) ∧
   req_params req !! "keyspace" = Some (PStr keyspace) ∧
   req_params req !! "owner" = Some (PStr owner) ∧
   req_params req !! "scheduleDaysBetween" = Some (PInt schedule_days_between) ∧
   req_params req !! "repairParallelism" = Some (PStr repair_parallelism) ∧
   req_params req !! "incrementalRepair" = Some (PBool incremental_repair) ∧
   req_params req !! "scheduleTriggerTime" = Some (PStr schedule_trigger_time) ∧
   req_params req !! "repairThreadCount" = Some (PInt repair_thread_count) ∧
   req_params req !! "adaptive" = Some (PBool adaptive) ∧
   req_params req !! "percentUnrepairedThreshold" =
     Some (PInt percent_unrepaired_threshold)) ∧
  (tables ≠ [] → req_params req !! "tables" = Some (pystrs tables)) ∧
  (segment_count_per_node ≠ 0 →
   req_params req !! "segmentCountPerNode" = Some (PInt segment_count_per_node)) ∧
  ((∀ s, intensity ≠ S754_zero s) →
   req_params req !! "intensity" = Some (PFloat intensity)) ∧
  (∀ s, intensity = S754_zero s → req_params req !! "intensity" = None) ∧
  (nodes ≠ [] → req_params req !! "nodes" = Some (pystrs nodes)) ∧
  (datacenters ≠ [] → req_params req !! "datacenters" = Some (pystrs datacenters)) ∧
  (blacklisted_tables ≠ [] →
   req_params req !! "blacklistedTables" = Some (pystrs blacklisted_tables)).
Proof.
  unfold add_schedule. rewrite snd_bind_ret.
  intros (Hv & Hu & Hp & Hb & _)%(run_op_request_exact (OpPost _ _ _ _)).
  simpl in Hv, Hu, Hp, Hb. rewrite Hp.
  split; [exact Hv|]. split; [exact Hu|]. split; [exact Hb|].
  apply add_schedule_params_sent.
Qed.

Lemma snapshot_params_sent (snapshot_name owner cause keyspace : string)
    (tables : list string) :
  let params := snapshot_params snapshot_name owner cause keyspace tables in
  params !! "snapshot_name" = Some (PStr snapshot_name) ∧
  params !! "owner" = Some (PStr owner) ∧
  (keyspace ≠ "" → params !! "keyspace" = Some (PStr keyspace)) ∧
  (tables ≠ [] → params !! "tables" = Some (PStr (str_join "," tables))) ∧
  (cause ≠ "" → params !! "cause" = Some (PStr cause)) ∧
  (∀ k, k ∉ ["snapshot_name"; "owner"; "keyspace"; "tables"; "cause"] →
        params !! k = None).
Proof.
  unfold snapshot_params. repeat split.
  - skip_other_keys. reflexivity.
  - skip_other_keys. reflexivity.
  - intros H. skip_other_keys. apply insert_if_true, truthy_str, H.
  - intros H. skip_other_keys. apply insert_if_true, truthy_pystrs, H.
  - intros H. skip_other_keys. apply insert_if_true, truthy_str, H.
  - intros k Hk. rewrite !not_elem_of_cons in Hk.
    destruct Hk as (H1 & H2 & H3 & H4 & H5 & _). cbv zeta.
    rewrite !insert_if_lookup by congruence.
    rewrite lookup_insert_ne by congruence. apply lookup_singleton_ne. congruence.
Qed.

(** X14: [create_cluster_snapshot] and [create_host_snapshot] send a POST
    with an empty form to the snapshot path of the cluster, or of the host
    in the cluster, with the same query parameters: the snapshot name and
    the owner always, keyspace and cause when not empty, the tables joined
    by commas when there are any, and nothing else. *)
Theorem X14_snapshot_requests (st : State) (cluster host snapshot_name owner cause
    keyspace : string) (tables : list string) (timeout : pyval) (req : Request) :
  let sent_as (query : string) :=
    req_verb req = POST ∧ req_url req = urljoin (url (self st)) query ∧
    req_body req = FormBody ∅ ∧
    req_params req !! "snapshot_name" = Some (PStr snapshot_name) ∧
    req_params req !! "owner" = Some (PStr owner) ∧
    (keyspace ≠ "" → req_params req !! "keyspace" = Some (PStr keyspace)) ∧
    (tables ≠ [] → req_params req !! "tables" = Some (PStr (str_join "," tables))) ∧
    (cause ≠ "" → req_params req !! "cause" = Some (PStr cause)) ∧
    (∀ k, k ∉ ["snapshot_name"; "owner"; "keyspace"; "tables"; "cause"] →
          req_params req !! k = None) in
  (req ∈ request_sends (events_since st
           (snd (create_cluster_snapshot cluster snapshot_name owner cause keyspace
                   tables timeout st))) →
   sent_as ("/snapshot/cluster/" +:+ cluster)) ∧
  (req ∈ request_sends (events_since st
           (snd (create_host_snapshot cluster host snapshot_name owner cause keyspace
                   tables timeout st))) →
   sent_as ("/snapshot/" +:+ cluster +:+ "/" +:+ host)).
Proof.
  intros sent_as. subst sent_as. cbv beta. split.
  - unfold create_cluster_snapshot. rewrite snd_bind_ret.
    intros (Hv & Hu & Hp & Hb & _)%(run_op_request_exact (OpPost _ _ _ _)).
    simpl in Hv, Hu, Hp, Hb. rewrite Hp.
    split; [exact Hv|]. split; [exact Hu|]. split; [exact Hb|].
    apply snapshot_params_sent.
  - unfold create_host_snapshot. rewrite snd_bind_ret.
    intros (Hv & Hu & Hp & Hb & _)%(run_op_request_exact (OpPost _ _ _ _)).
    simpl in Hv, Hu, Hp, Hb. rewrite Hp.
    split; [exact Hv|]. split; [exact Hu|]. split; [exact Hb|].
    apply snapshot_params_sent.
Qed.

(** A method that decodes what its helper returns, on a first response
    the validator accepts: one request, and the outcome of the decoder. *)
Lemma decoded_first_try (op : req_op) (st : State) (r : Response) (w1 : World) :
  transport (world st) (op_request op (self st)) = (inr r, w1) →
  classify r = Ok →
  bind (run_op op) (fun req => lift (json req)) st =
    (json r, sent ByRequest (op_request op (self st)) (inr r) w1 st).
Proof.
  intros Ht Hc.
  destruct (first_try_run op st (inr r) w1 Ht) as (Hrun & _).
  { intros r' [= <-]. congruence. }
  apply classify_Ok in Hc. rewrite Hc in Hrun.
  unfold bind. rewrite Hrun. reflexivity.
Qed.

Lemma dropped_first_try (op : req_op) (st : State) (r : Response) (w1 : World) :
  transport (world st) (op_request op (self st)) = (inr r, w1) →
  classify r = Ok →
  bind (run_op op) (fun _ => ret tt) st =
    (inr tt, sent ByRequest (op_request op (self st)) (inr r) w1 st).
Proof.
  intros Ht Hc.
  destruct (first_try_run op st (inr r) w1 Ht) as (Hrun & _).
  { intros r' [= <-]. congruence. }
  apply classify_Ok in Hc. rewrite Hc in Hrun.
  unfold bind. rewrite Hrun. reflexivity.
Qed.

(** X15: a method that returns data decodes the body of the accepted
    response: [get_clusters], [get_repair], [get_schedule] and
    [update_schedule] return the decoded value, and raise
    [JSONDecodeError] when the body is not JSON, the request having been
    sent (for [update_schedule], the PATCH with its seven fields).  A method
    that returns nothing, such as [pause_repair], does not read the body. *)
Theorem X15_accepted_response_decoded (st : State) (timeout : pyval) (id : string)
    (r : Response) (w1 : World) :
  classify r = Ok →
  let decoded (run : result pyval * State) (req : Request) :=
    run = (json r, sent ByRequest req (inr r) w1 st) ∧
    (json_loads (text r) = None → fst run = inl JSONDecodeError) ∧
    (∀ v, json_loads (text r) = Some v → fst run = inr v) in
  (∀ req, req = prepare GET "cluster" ∅ NoBody timeout (self st) →
          transport (world st) req = (inr r, w1) →
          decoded (get_clusters timeout st) req) ∧
  (∀ req, req = prepare GET ("repair_run/" +:+ id) ∅ NoBody timeout (self st) →
          transport (world st) req = (inr r, w1) →
          decoded (get_repair id timeout st) req) ∧
  (∀ req, req = prepare GET ("repair_schedule/" +:+ id) ∅ NoBody timeout (self st) →
          transport (world st) req = (inr r, w1) →
          decoded (get_schedule id timeout st) req) ∧
  (∀ req owner repair_parallelism intensity scheduled_days_between
     segment_count_per_node percent_unrepaired_threshold adaptive,
     req = prepare PATCH ("repair_schedule/" +:+ id) ∅
             (JsonBody (PDict
                {[ "owner" := PStr owner;
                   "repair_parallelism" := PStr repair_parallelism;
                   "intensity" := PFloat intensity;
                   "scheduled_days_between" := PInt scheduled_days_between;
                   "segment_count_per_node" := PInt segment_count_per_node;
                   "percent_unrepaired_threshold" := PInt percent_unrepaired_threshold;
                   "adaptive" := PBool adaptive ]}))
             timeout (self st) →
     transport (world st) req = (inr r, w1) →
     decoded (update_schedule id owner repair_parallelism intensity
                scheduled_days_between segment_count_per_node
                percent_unrepaired_threshold adaptive timeout st) req) ∧
  (∀ req, req = prepare PUT ("/repair_run/" +:+ id +:+ "/state/PAUSED") ∅
                  (FormBody ∅) timeout (self st) →
          transport (world st) req = (inr r, w1) →
          pause_repair id timeout st = (inr tt, sent ByRequest req (inr r) w1 st)).
Proof.
  intros Hc decoded.
  assert (Hdec : ∀ (m : M pyval) (op : req_op),
            (∀ st, m st = bind (run_op op) (fun req => lift (json req)) st) →
            transport (world st) (op_request op (self st)) = (inr r, w1) →
            decoded (m st) (op_request op (self st))).
  { intros m op Hm Ht. unfold decoded. rewrite Hm.
    rewrite (decoded_first_try op st r w1 Ht Hc). simpl. unfold json.
    split; [reflexivity|]. split; [intros ->; reflexivity|].
    intros v ->. reflexivity. }
  split; [|split; [|split; [|split]]].
  - intros req -> Ht. apply (Hdec _ (OpGet _ _ _)); [reflexivity|exact Ht].
  - intros req -> Ht. apply (Hdec _ (OpGet _ _ _)); [reflexivity|exact Ht].
  - intros req -> Ht. apply (Hdec _ (OpGet _ _ _)); [reflexivity|exact Ht].
  - intros req o rp i sd sc pt a -> Ht.
    apply (Hdec _ (OpPatch _ _ _ _)); [reflexivity|exact Ht].
  - intros req -> Ht.
    apply (dropped_first_try (OpPut _ _ _ _) st r w1 Ht Hc).
Qed.

End More.

(** * The properties on the scripted service *)

Section Runs.
#[local] Existing Instance scripted.

(** End to end: 403 on the first GET, a second login, 200 on the second
    GET, which carries the new token. *)
Example get_clusters_after_expiry :
  fst (get_clusters (PInt 10) (expiring found)) = inr (PList [PStr "c1"; PStr "c2"]) ∧
  token (self (snd (get_clusters (PInt 10) (expiring found)))) = "tok-2" ∧
  (req_headers <$> last (sends (trace (snd (get_clusters (PInt 10) (expiring found))))))
    ≫= (.!! "Authorization") = Some "Bearer tok-2".
Proof. repeat split. Qed.

Lemma C1_retry_once_witness :
  run_op get_cluster (expiring found) = (inr found, expiring_st3 found) ∧
  count_logins (events_since (expiring found) (expiring_st3 found)) = 1%nat.
Proof.
  apply (C1_retry_once get_cluster (expiring found) (expiring_st2 found)
           expired found (relogin_then found) []); reflexivity.
Defined.

Lemma C2_single_retry_witness :
  run_op get_cluster (expiring expired) =
    (inl (AuthError "URL: http://reaper/cluster, Status: 403, Text: expired"),
     expiring_st3 expired) ∧
  count_logins (events_since (expiring expired) (expiring_st3 expired)) = 1%nat ∧
  length (request_sends (events_since (expiring expired) (expiring_st3 expired))) = 2%nat.
Proof.
  destruct (proj2 (proj2 (C2_single_retry get_cluster (expiring expired)))
              (expiring_st2 expired) expired expired (relogin_then expired) []
              (AuthError "URL: http://reaper/cluster, Status: 403, Text: expired")
              eq_refl eq_refl eq_refl eq_refl eq_refl)
    as (Hrun & _ & _ & Hn & Hq).
  split; [exact Hrun|]. split; [exact Hn|]. exact (f_equal length Hq).
Defined.

(** C4 as stated fails: a [/jwt] response with status 200 and an empty
    body completes the login, and the stored token is empty. *)
Lemma C4_counterexample :
  fst (login empty_jwt) = inr tt ∧ token (self (snd (login empty_jwt))) = "".
Proof. split; reflexivity. Qed.

Lemma C4_bearer_attached_witness :
  ∃ login_req jwt_req,
    events_since authenticating (snd (login authenticating)) =
      [EvLogin; EvSend ByLogin (login_post (self authenticating)) (inr login_req);
       EvSend ByLogin (login_get (self authenticating)) (inr jwt_req);
       EvLoginOk (text jwt_req)] ∧
    token (self (snd (login authenticating))) = text jwt_req ∧
    __s_headers (self (snd (login authenticating))) !! "Authorization" =
      Some ("Bearer " +:+ text jwt_req).
Proof. apply (proj1 (proj2 C4_bearer_attached) authenticating). reflexivity. Defined.

(** C5 as stated fails: 304 is not a 2xx status, yet a [/login] response
    with status 304 passes the validator, and [login] sends the GET to
    [/jwt] and completes. *)
Lemma C5_counterexample :
  ¬ (200 <= 304 <= 299) ∧
  fst (login not_modified) = inr tt ∧
  sends (events_since not_modified (snd (login not_modified))) =
    [login_post (self not_modified); login_get (self not_modified)].
Proof. split; [lia|]. split; reflexivity. Qed.

Lemma C5_login_failure_witness :
  fst (login broken) =
    inl (HTTPError "URL: http://reaper/, Status: 500, Text: boom") ∧
  sends (events_since broken (snd (login broken))) = [login_post (self broken)].
Proof.
  destruct (proj1 C5_login_failure broken
              {| resp_url := "http://reaper/"; status_code := 500; text := "boom" |} []
              (HTTPError "URL: http://reaper/, Status: 500, Text: boom")
              eq_refl eq_refl) as (Hr & Hs & _).
  split; [exact Hr|exact Hs].
Defined.

(** C6 as stated fails for DELETE: [__delete] has no payload parameter,
    and the request it sends carries no body, form-encoded or other. *)
Lemma C6_counterexample :
  ∃ req, request_sends (events_since obliging
           (snd (__delete "cluster/c1" {[ "force" := PBool false ]} (PInt 10) obliging)))
         = [req] ∧
         req_verb req = DELETE ∧ req_body req = NoBody ∧
         ∀ data, req_body req ≠ FormBody data.
Proof. eexists. repeat split. discriminate. Qed.

Lemma C6_bodies_witness :
  let req := op_request (OpPost "repair_schedule" ∅ {[ "owner" := PStr "alice" ]} (PInt 10))
               (self obliging) in
  req_verb req = POST ∧ req_body req = FormBody {[ "owner" := PStr "alice" ]}.
Proof.
  intros req.
  apply (proj1 (C6_bodies obliging "repair_schedule" ∅ (PInt 10) req)
           {[ "owner" := PStr "alice" ]}).
  apply list_elem_of_here.
Defined.

Lemma C8_empty_filters_omitted_witness :
  let req := op_request (OpGet "repair_run" ∅ (PInt 10)) (self obliging) in
  req_params req !! "cluster_name" = None ∧ req_params req !! "state" = None.
Proof.
  intros req.
  destruct (proj2 (proj1 (C8_empty_filters_omitted obliging (PInt 10) req) "" []))
    as [Hc Hs]; [apply list_elem_of_here|].
  split; [apply Hc|apply Hs]; reflexivity.
Defined.

Lemma C9_delete_by_owner_witness :
  delete_repair "42" (PInt 10) owned =
    void (__delete "repair_run/42" {[ "owner" := PStr "alice" ]} (PInt 10))
         (snd (get_repair "42" (PInt 10) owned)) ∧
  ∃ me, prepare DELETE "repair_run/42" {[ "owner" := PStr "alice" ]} NoBody (PInt 10) me
        ∈ sends (events_since owned (snd (delete_repair "42" (PInt 10) owned))).
Proof.
  destruct (proj2 (proj2 (proj1 (C9_delete_by_owner "42" (PInt 10) owned)))
              (PDict {[ "owner" := PStr "alice" ]}) (PStr "alice") eq_refl eq_refl)
    as (Hrun & Hsent & _).
  split; [exact Hrun|exact Hsent].
Defined.

Lemma C10_only_login_sets_token_witness :
  token (self (snd (run_call (CallGetClusters (PInt 10)) broken))) = token (self broken) ∧
  __s_headers (self (snd (run_call (CallGetClusters (PInt 10)) broken))) =
    __s_headers (self broken).
Proof.
  apply (proj1 C10_only_login_sets_token (CallGetClusters (PInt 10)) broken).
  reflexivity.
Defined.

End Runs.

(** * The further properties on the scripted service *)

Section MoreRuns.
#[local] Existing Instance scripted.

Lemma X1_first_try_settles_witness :
  run_op get_cluster broken =
    (inl (HTTPError "URL: http://reaper/, Status: 500, Text: boom"),
     sent ByRequest (op_request get_cluster (self broken)) (answer 500 "boom") [] broken) ∧
  count_logins (events_since broken
     (sent ByRequest (op_request get_cluster (self broken)) (answer 500 "boom") []
        broken)) = 0%nat.
Proof.
  destruct (X1_first_try_settles get_cluster broken (answer 500 "boom") [] eq_refl)
    as (Hrun & _ & Hn & _).
  { intros r [= <-]. discriminate. }
  split; [exact Hrun|exact Hn].
Defined.

Lemma X2_failed_relogin_witness :
  run_op get_cluster relogin_refused =
    (inl (HTTPError "URL: http://reaper/, Status: 500, Text: boom"),
     relogin_refused_st2) ∧
  length (request_sends (events_since relogin_refused relogin_refused_st2)) = 1%nat.
Proof.
  destruct (X2_failed_relogin get_cluster relogin_refused relogin_refused_st2 expired
              [answer 500 "boom"]
              (HTTPError "URL: http://reaper/, Status: 500, Text: boom")
              eq_refl eq_refl eq_refl) as (Hrun & Hq & _).
  split; [exact Hrun|exact (f_equal length Hq)].
Defined.

Lemma X3_resend_same_request_witness :
  req_headers (op_request get_cluster (self (expiring_st2 found))) =
    <["Authorization" := "Bearer tok-2"]>
      (req_headers (op_request get_cluster (self (expiring found)))) ∧
  length (request_sends (events_since (expiring found)
            (snd (run_op get_cluster (expiring found))))) = 2%nat.
Proof.
  destruct (X3_resend_same_request get_cluster (expiring found) (expiring_st2 found)
              expired (relogin_then found) eq_refl eq_refl eq_refl)
    as (_ & _ & _ & _ & _ & _ & Hh & Hq & _).
  split; [exact Hh|exact (f_equal length Hq)].
Defined.

Lemma X4_second_try_fault_witness :
  fst (run_op get_cluster dropping) = inl (TransportError ConnectionError).
Proof.
  destruct (X4_second_try_fault get_cluster dropping dropping_st2 expired
              [answer 200 "welcome"; answer 200 "tok-2"] [] ConnectionError
              eq_refl eq_refl eq_refl eq_refl) as (Hrun & _).
  exact (f_equal fst Hrun).
Defined.

Lemma X7_jwt_failure_witness :
  sends (events_since jwt_refused (snd (login jwt_refused))) =
    [login_post (self jwt_refused); login_get (self jwt_refused)] ∧
  self (snd (login jwt_refused)) = self jwt_refused.
Proof.
  destruct (X7_jwt_failure jwt_refused
              {| resp_url := "http://reaper/"; status_code := 200; text := "welcome" |}
              [answer 500 "no token"] [] (answer 500 "no token")
              eq_refl eq_refl eq_refl) as (_ & Hs & _ & Hself).
  { intros r [= <-]. discriminate. }
  split; [exact Hs|exact Hself].
Defined.

Lemma X8_login_frame_witness :
  __s_headers (self (snd (login authenticating))) !! "User-Agent" =
    __s_headers (self authenticating) !! "User-Agent" ∧
  __password (self (snd (login authenticating))) = __password (self authenticating).
Proof.
  destruct (X8_login_frame authenticating eq_refl) as (Hk & _ & _ & _ & Hp & _).
  split; [apply Hk; discriminate|exact Hp].
Defined.


Lemma X11_delete_without_owner_witness :
  delete_repair "42" (PInt 10) listing =
    (inl TypeError, snd (get_repair "42" (PInt 10) listing)).
Proof.
  destruct (X11_delete_without_owner "42" (PInt 10) listing
              (PList [PStr "c1"; PStr "c2"]) TypeError eq_refl)
    as (_ & Hrepair & _).
  apply (Hrepair eq_refl).
Defined.

Lemma X12_filters_sent_witness :
  req_params (prepare GET "repair_run"
                (get_repairs_params "prod" ["RUNNING"; "PAUSED"]) NoBody (PInt 10)
                (self obliging)) !! "state" = Some (PStr "RUNNING,PAUSED").
Proof.
  destruct (proj1 (X12_filters_sent obliging (PInt 10)
                     (prepare GET "repair_run"
                        (get_repairs_params "prod" ["RUNNING"; "PAUSED"]) NoBody
                        (PInt 10) (self obliging)))
              "prod" ["RUNNING"; "PAUSED"] (list_elem_of_here _ _))
    as (_ & _ & _ & _ & Hs & _).
  apply Hs. discriminate.
Defined.

Lemma X13_add_schedule_request_witness :
  req_params (prepare POST "repair_schedule" nightly_params (FormBody ∅) (PInt 10)
                (self obliging)) !! "incrementalRepair" = Some (PBool false) ∧
  req_params (prepare POST "repair_schedule" nightly_params (FormBody ∅) (PInt 10)
                (self obliging)) !! "intensity" = None.
Proof.
  destruct (X13_add_schedule_request obliging "prod" "ks" "alice" 7 0 (S754_zero false)
              "DATACENTER_AWARE" 1 [] "2026-01-01T00:00:00+00:00" [] [] [] false true
              (-1) (PInt 10)
              (prepare POST "repair_schedule" nightly_params (FormBody ∅) (PInt 10)
                 (self obliging))
              (list_elem_of_here _ _))
    as (_ & _ & _ & (_ & _ & _ & _ & _ & Hi & _) & _ & _ & _ & Hz & _).
  split; [exact Hi|exact (Hz false eq_refl)].
Defined.

Lemma X14_snapshot_requests_witness :
  req_params (prepare POST "/snapshot/cluster/prod"
                (snapshot_params "nightly" "alice" "" "" ["t1"; "t2"]) (FormBody ∅)
                (PInt 10) (self obliging)) !! "tables" = Some (PStr "t1,t2").
Proof.
  destruct (proj1 (X14_snapshot_requests obliging "prod" "node1" "nightly" "alice" ""
                     "" ["t1"; "t2"] (PInt 10)
                     (prepare POST "/snapshot/cluster/prod"
                        (snapshot_params "nightly" "alice" "" "" ["t1"; "t2"])
                        (FormBody ∅) (PInt 10) (self obliging)))
              (list_elem_of_here _ _))
    as (_ & _ & _ & _ & _ & _ & Ht & _).
  apply Ht. discriminate.
Defined.

Lemma X15_accepted_response_decoded_witness :
  fst (get_clusters (PInt 10) obliging) = inl JSONDecodeError.
Proof.
  destruct (proj1 (X15_accepted_response_decoded obliging (PInt 10) "42"
                     {| resp_url := "http://reaper/"; status_code := 200;
                        text := "done" |} [] eq_refl)
              (prepare GET "cluster" ∅ NoBody (PInt 10) (self obliging))
              eq_refl eq_refl) as (_ & Hnone & _).
  apply Hnone. reflexivity.
Defined.

End MoreRuns.
